(** * ConvexBackend: lifecycle manager of a local Convex backend

    A shallow embedding of the [ConvexBackend] class of convex-vite-plugin
    (constructor, [spawn], [waitForReady], [startBackend], [deploy],
    [setEnv], [runFunction], [stop]).

    The class talks to the outside world all the time: the file system, child
    processes, HTTP, the logger.  Every such call is a constructor of [Call];
    a method is a program over these calls that threads the instance ([this])
    and completes normally or by throwing.  [run] executes a program against
    an [Oracle] answering the calls, and records the calls made. *)

From Stdlib Require Import ZArith List String Ascii Bool Lia.
From Stdlib Require Import DecimalString.
Import ListNotations.

Set Implicit Arguments.
Local Open Scope string_scope.
Local Open Scope Z_scope.

(* ================================================================== *)
(** ** JavaScript values as the class uses them *)
(* ================================================================== *)

Module JS.

(** A JavaScript [Error]: [new Error(msg)] has no [code]; system errors
    raised by Node (ECONNREFUSED, ETIMEDOUT, ENOENT, ESRCH) carry one. *)
Record Error : Type := mkError { message : string; code : option string }.

Definition new_Error (msg : string) : Error :=
  {| message := msg; code := None |}.

(** [a ?? b] on an optional property. *)
Definition nullish {A : Type} (a : option A) (b : A) : A :=
  match a with
  | Some v => v
  | None => b
  end.

(** Truthiness of a [string | undefined]: [undefined] and the empty string
    are falsy. *)
Definition truthy_string (s : option string) : bool :=
  match s with
  | Some (String _ _) => true
  | Some EmptyString => false
  | None => false
  end.

(** The test [a && b] on two [string | undefined]: when it passes, both are
    strings (and not empty), which is what the branch then reads. *)
Definition both_truthy (a b : option string) : option (string * string) :=
  match a, b with
  | Some x, Some y =>
      if truthy_string a && truthy_string b then Some (x, y) else None
  | _, _ => None
  end.

(** Truthiness of a [number | undefined] (numbers are integers here; NaN is
    not modelled): [undefined] and [0] are falsy. *)
Definition truthy_number (n : option Z) : bool :=
  match n with
  | Some v => negb (v =? 0)
  | None => false
  end.

(** [String(n)] and [`${n}`] for an integer. *)
Definition String_of_number (n : Z) : string :=
  NilZero.string_of_int (Z.to_int n).

(** [`${n}`] for a [number | undefined]. *)
Definition template_number (n : option Z) : string :=
  match n with
  | Some v => String_of_number v
  | None => "undefined"
  end.

(** [`${n}`] for a [number | null]. *)
Definition template_nullable (n : option Z) : string :=
  match n with
  | Some v => String_of_number v
  | None => "null"
  end.

(** How a method invocation completes. *)
Inductive Completion (A : Type) : Type :=
| Normal (a : A)
| Throws (e : Error).

Arguments Normal {A} a.
Arguments Throws {A} e.

Definition throws {A : Type} (c : Completion A) : bool :=
  match c with
  | Normal _ => false
  | Throws _ => true
  end.

End JS.

Import JS.

(** [part] occurs in [msg]. *)
Definition embeds (msg part : string) : Prop :=
  exists pre post : string, msg = pre ++ part ++ post.

(* ================================================================== *)
(** ** The platform: Node's API, the logger, and the sibling modules *)
(* ================================================================== *)

(** [StdioOptions] of node:child_process. *)
Inductive StdioOptions : Type :=
| StdioMode (mode : string)
| StdioArray (modes : list string).

(** The part of a [ChildProcess] the class reads. *)
Record ChildProcess : Type := mkChild { pid : option Z }.

(** What [spawnSync] returns (with [encoding: "utf-8"]). *)
Record SpawnSyncReturns : Type := mkSpawnSync {
  error : option Error;
  status : option Z;
  stdout : string;
  stderr : string
}.

(** An HTTP response: [ok] is derived from the status as fetch does. *)
Record Response : Type := mkResponse {
  resp_status : Z;
  resp_text : string
}.

Definition ok (r : Response) : bool :=
  (200 <=? resp_status r) && (resp_status r <=? 299).

(** The object handed to [JSON.stringify] as a request body. *)
Inductive Body : Type :=
| NoBody
| EnvChanges (changes : list (string * string))
| FunctionCall (path format args : string).

Record RequestInit : Type := mkInit {
  method : string;
  headers : list (string * string);
  body : Body
}.

Definition GET : RequestInit :=
  {| method := "GET"; headers := []; body := NoBody |}.

(** Result of [generateKeyPair] (./keys.ts). *)
Record KeyPair : Type := mkKeys {
  keys_instanceSecret : string;
  keys_adminKey : string
}.

(** Options of [downloadConvexBinary] (./utils.ts). *)
Record DownloadOptions : Type := mkDownload {
  cacheTtlMs : Z;
  version : option string;
  cacheDir : option string
}.

(** A vite [Logger], identified by a handle. *)
Definition Logger : Type := nat.

(** The calls the class makes to the outside.  The index is the type of the
    answer; [Error + X] is a call that may throw (or reject) instead of
    answering.  Options that are the same at every call site are left out:
    [{ timestamp: true }] of [logger.info], [encoding: "utf-8"] and
    [stdio: ["ignore", "pipe", "pipe"]] of [spawnSync].
    [crypto_randomBytes_hex n] is [crypto.randomBytes(n).toString("hex")];
    [response_json_value r] is [(await r.json()).value]; [sleep] is the pause
    between two probes of [waitForHttpOk]. *)
Inductive Call : Type -> Type :=
| process_cwd : Call string
| crypto_randomBytes_hex (size : Z) : Call string
| generateKeyPair (name : string) : Call KeyPair
| fs_mkdirSync (dir : string) (recursive : bool) : Call (Error + unit)
| downloadConvexBinary (o : DownloadOptions) (l : Logger) : Call (Error + string)
| childProcess_spawn (command : string) (args : list string)
    (cwd : string) (io : StdioOptions) : Call ChildProcess
| childProcess_spawnSync (command : string) (args : list string)
    (cwd : string) (timeout : Z) : Call SpawnSyncReturns
| logger_info (l : Logger) (msg : string) : Call unit
| fetch (url : string) (init : RequestInit) : Call (Error + Response)
| response_json_value (r : Response) : Call (Error + string)
| sleep (ms : Z) : Call unit
| process_kill (p : Z) (signal : string) : Call (Error + unit)
| fsp_rm (dir : string) (recursive : bool) : Call (Error + unit).

(** Programs over [Call]. *)
Inductive Prog (A : Type) : Type :=
| Ret (a : A)
| Vis (X : Type) (c : Call X) (k : X -> Prog A).

Arguments Ret {A} a.
Arguments Vis {A X} c k.

Fixpoint pbind {A B : Type} (p : Prog A) (f : A -> Prog B) : Prog B :=
  match p with
  | Ret a => f a
  | Vis c k => Vis c (fun x => pbind (k x) f)
  end.

Definition perform {X : Type} (c : Call X) : Prog X := Vis c (fun x => Ret x).

(** A call made and the answer it got. *)
Inductive Event : Type :=
| Ev (X : Type) (c : Call X) (x : X).

Arguments Ev {X} c x.

(** The world: the answer to the [n]-th call of a run. *)
Definition Oracle : Type := forall X : Type, nat -> Call X -> X.

(** [run o n p]: execute [p], its first call being the [n]-th of the run. *)
Fixpoint run {A : Type} (o : Oracle) (n : nat) (p : Prog A) : list Event * A :=
  match p with
  | Ret a => ([], a)
  | Vis c k =>
      let x := o _ n c in
      let r := run o (S n) (k x) in
      (Ev c x :: fst r, snd r)
  end.

(** Methods: a program from the instance to the instance and a completion.
    What a method assigned to [this] before it threw stays assigned. *)
Definition M (S A : Type) : Type := S -> Prog (S * Completion A).

Definition ret {S A : Type} (a : A) : M S A := fun s => Ret (s, Normal a).

Definition throw {S A : Type} (e : Error) : M S A := fun s => Ret (s, Throws e).

Definition bind {S A B : Type} (m : M S A) (f : A -> M S B) : M S B :=
  fun s =>
    pbind (m s) (fun r =>
      match snd r with
      | Normal a => f a (fst r)
      | Throws e => Ret (fst r, Throws e)
      end).

Definition get {S : Type} : M S S := fun s => Ret (s, Normal s).

Definition put {S : Type} (s : S) : M S unit := fun _ => Ret (s, Normal tt).

(** A call that cannot throw. *)
Definition call {S X : Type} (c : Call X) : M S X :=
  fun s => Vis c (fun x => Ret (s, Normal x)).

(** [await]/plain use of a call that may throw: the error propagates. *)
Definition callE {S X : Type} (c : Call (Error + X)) : M S X :=
  fun s => Vis c (fun x =>
    match x with
    | inl e => Ret (s, Throws e)
    | inr v => Ret (s, Normal v)
    end).

(** [try { m } catch (e) { h e }]. *)
Definition try_catch {S A : Type} (m : M S A) (h : Error -> M S A) : M S A :=
  fun s =>
    pbind (m s) (fun r =>
      match snd r with
      | Normal a => Ret (fst r, Normal a)
      | Throws e => h e (fst r)
      end).

Declare Scope js_scope.
Delimit Scope js_scope with js.

Notation "x <- m ;; k" := (bind m (fun x => k))
  (at level 100, m at next level, right associativity) : js_scope.
Notation "m ;; k" := (bind m (fun _ => k))
  (at level 100, right associativity) : js_scope.

Local Open Scope js_scope.

(** The RangeError of Node's validation of a [timeout] option:
    [The value of "timeout" is out of range. It must be an unsigned integer.
    Received n]. *)
Definition ERR_OUT_OF_RANGE_timeout (timeout : Z) : Error :=
  {| message := "The value of " ++ String (ascii_of_nat 34) "timeout"
                  ++ String (ascii_of_nat 34) " is out of range. "
                  ++ "It must be an unsigned integer. Received "
                  ++ String_of_number timeout;
     code := Some "ERR_OUT_OF_RANGE" |}.

(** [childProcess.spawnSync(command, args, { cwd, timeout, ... })].  Node
    validates the options before it starts anything: a timeout that is not
    an unsigned integer makes it throw, and the command is not run.  Numbers
    are integers here, so the timeouts it refuses are the negative ones.
    Whatever happens to the command itself is reported in what the call
    returns. *)
Definition spawnSync {S : Type} (command : string) (args : list string)
           (cwd : string) (timeout : Z) : M S SpawnSyncReturns :=
  if timeout <? 0
  then throw (ERR_OUT_OF_RANGE_timeout timeout)
  else call (childProcess_spawnSync command args cwd timeout).

(* ================================================================== *)
(** ** The class *)
(* ================================================================== *)

(** [ConvexBackendOptions]: every property is optional. *)
Module Options.
Record t : Type := mk {
  instanceName : option string;
  instanceSecret : option string;
  adminKey : option string;
  port : option Z;
  siteProxyPort : option Z;
  projectDir : option string;
  stdio : option StdioOptions;
  deployTimeout : option Z;
  healthCheckTimeout : option Z;
  binaryVersion : option string;
  binaryCacheDir : option string;
  binaryCacheTtl : option Z
}.

(** The options object [{}]. *)
Definition empty : t :=
  mk None None None None None None None None None None None None.
End Options.

Definition ConvexBackendOptions : Type := Options.t.

(** The fields of a [ConvexBackend]. *)
Record ConvexBackend : Type := mkBackend {
  port : option Z;
  siteProxyPort : option Z;
  process : option ChildProcess;
  backendUrl : option string;
  projectDir : string;
  backendDir : string;
  stdio : StdioOptions;
  instanceName : string;
  instanceSecret : string;
  adminKey : string;
  logger : Logger;
  deployTimeout : Z;
  healthCheckTimeout : Z;
  binaryVersion : option string;
  binaryCacheDir : option string;
  binaryCacheTtl : Z
}.

(** [this.process = p]. *)
Definition set_process (p : option ChildProcess) (this : ConvexBackend) : ConvexBackend :=
  {| port := port this;
     siteProxyPort := siteProxyPort this;
     process := p;
     backendUrl := backendUrl this;
     projectDir := projectDir this;
     backendDir := backendDir this;
     stdio := stdio this;
     instanceName := instanceName this;
     instanceSecret := instanceSecret this;
     adminKey := adminKey this;
     logger := logger this;
     deployTimeout := deployTimeout this;
     healthCheckTimeout := healthCheckTimeout this;
     binaryVersion := binaryVersion this;
     binaryCacheDir := binaryCacheDir this;
     binaryCacheTtl := binaryCacheTtl this |}.

Definition Method (A : Type) : Type := M ConvexBackend A.

(** The public methods, as a caller names them. *)
Inductive Op : Type :=
| op_getAdminKey
| op_spawn (backendDir : string)
| op_waitForReady
| op_startBackend (backendDir : string)
| op_deploy
| op_setEnv (name value : string)
| op_runFunction (functionName args : string)
| op_stop (cleanup : bool).

Section Class.

(** [path.join] of node:path, a pure function of the platform. *)
Variable path_join : list string -> string.

(** The fixed polling interval of the readiness prober, in milliseconds
    (spec 4.4: "bounded and fixed"; its value is in the missing ./utils.ts). *)
Variable pollIntervalMs : Z.

(** [new ConvexBackend(options, logger)].  [process] is declared and not
    assigned.  [process.cwd()] is evaluated only when [projectDir] is not
    given, [generateKeyPair] only in the else branch. *)
Definition constructor (options : ConvexBackendOptions) (logger : Logger) : Prog ConvexBackend :=
  pbind (match Options.projectDir options with
         | Some d => Ret d
         | None => perform process_cwd
         end) (fun projectDir =>
  pbind (perform (crypto_randomBytes_hex 16)) (fun hex =>
  let backendDir := path_join [projectDir; ".convex"; hex] in
  let stdio := nullish (Options.stdio options) (StdioMode "inherit") in
  let deployTimeout := nullish (Options.deployTimeout options) 60000 in
  let healthCheckTimeout := nullish (Options.healthCheckTimeout options) 10000 in
  let binaryVersion := Options.binaryVersion options in
  let binaryCacheDir := Options.binaryCacheDir options in
  let binaryCacheTtl := nullish (Options.binaryCacheTtl options) (7 * 24 * 60 * 60 * 1000) in
  let port := nullish (Options.port options) 3210 in
  let siteProxyPort := nullish (Options.siteProxyPort options) 3211 in
  let backendUrl := "http://127.0.0.1:" ++ String_of_number port in
  let instanceName := nullish (Options.instanceName options) "convex-local" in
  pbind (match both_truthy (Options.instanceSecret options) (Options.adminKey options) with
         | Some (secret, key) => Ret (secret, key)
         | None =>
             pbind (perform (generateKeyPair instanceName)) (fun keys =>
             Ret (keys_instanceSecret keys, keys_adminKey keys))
         end)
    (fun creds =>
  Ret {| port := Some port;
         siteProxyPort := Some siteProxyPort;
         process := None;
         backendUrl := Some backendUrl;
         projectDir := projectDir;
         backendDir := backendDir;
         stdio := stdio;
         instanceName := instanceName;
         instanceSecret := fst creds;
         adminKey := snd creds;
         logger := logger;
         deployTimeout := deployTimeout;
         healthCheckTimeout := healthCheckTimeout;
         binaryVersion := binaryVersion;
         binaryCacheDir := binaryCacheDir;
         binaryCacheTtl := binaryCacheTtl |}))).

Definition getAdminKey : Method string :=
  this <- get ;; ret (adminKey this).

(** [spawn(backendDir)]. *)
Definition spawn (backendDir : string) : Method unit :=
  this <- get ;;
  let storageDir := path_join [backendDir; "convex_local_storage"] in
  callE (fs_mkdirSync storageDir true) ;;
  let sqlitePath := path_join [backendDir; "convex_local_backend.sqlite3"] in
  convexBinary <- callE (downloadConvexBinary
                    {| cacheTtlMs := binaryCacheTtl this;
                       version := binaryVersion this;
                       cacheDir := binaryCacheDir this |}
                    (logger this)) ;;
  child <- call (childProcess_spawn convexBinary
             [ "--port"; template_number (port this);
               "--site-proxy-port"; template_number (siteProxyPort this);
               "--instance-name"; instanceName this;
               "--instance-secret"; instanceSecret this;
               "--local-storage"; storageDir;
               sqlitePath ]
             backendDir (stdio this)) ;;
  put (set_process (Some child) this) ;;
  if negb (truthy_number (pid child))
  then throw (new_Error "Convex process failed to start - no PID assigned")
  else
    call (logger_info (logger this)
            ("Backend spawned on port " ++ template_number (port this)
               ++ " (waiting for ready...)")).

(** Modelled from the spec: the error [waitForHttpOk] raises when the
    timeout elapses, "a timeout error distinguishable from a
    connection-refused condition" (4.4).  It is a plain [Error]; the wording
    of its message is not fixed by the spec. *)
Definition readinessTimeout (url : string) (timeoutMs : Z) : Error :=
  new_Error ("Timed out after " ++ String_of_number timeoutMs
               ++ "ms waiting for " ++ url).

(** Modelled from the spec: the polling loop of [waitForHttpOk] (4.4).
    Each round checks the deadline, sends one GET probe, returns on a 2xx
    answer, and otherwise (another status, or an error such as a refused
    connection, which is caught) sleeps for the fixed interval and goes on.
    [elapsed] is the time waited so far; there is one round per unit of
    [fuel]. *)
Fixpoint pollUntilOk {S : Type} (fuel : nat) (url : string) (timeoutMs elapsed : Z) : M S unit :=
  match fuel with
  | O => throw (readinessTimeout url timeoutMs)
  | Datatypes.S fuel' =>
      if timeoutMs <=? elapsed
      then throw (readinessTimeout url timeoutMs)
      else
        ready <- try_catch
                   (response <- callE (fetch url GET) ;; ret (ok response))
                   (fun _ => ret false) ;;
        if ready : bool
        then ret tt
        else
          call (sleep pollIntervalMs) ;;
          pollUntilOk fuel' url timeoutMs (elapsed + pollIntervalMs)
  end.

(** Modelled from the spec: [waitForHttpOk] of ./utils.ts, which the class
    imports and whose source is not available.  The spec (4.4, 6, 7): the
    prober repeatedly issues a GET probe until a 2xx response is observed or
    the timeout elapses, at which point it raises a timeout error; a refused
    connection during the polling window is swallowed and retried; the
    polling interval is fixed.  Time is the time slept: a probe itself takes
    none.  An interval of at least 1ms never exhausts the fuel before the
    timeout. *)
Definition waitForHttpOk {S : Type} (url : string) (timeoutMs : Z) : M S unit :=
  pollUntilOk (Z.to_nat timeoutMs) url timeoutMs 0.

Definition healthCheck : Method unit :=
  this <- get ;;
  if negb (truthy_number (port this))
  then throw (new_Error "Port not set for health check")
  else
    let url := "http://localhost:" ++ template_number (port this) ++ "/version" in
    waitForHttpOk url (healthCheckTimeout this).

(** [waitForReady()]. *)
Definition waitForReady : Method unit :=
  healthCheck ;;
  this <- get ;;
  call (logger_info (logger this) "Backend ready") ;;
  call (logger_info (logger this) ("  Instance name:   " ++ instanceName this)) ;;
  call (logger_info (logger this) ("  Instance secret: " ++ instanceSecret this)) ;;
  call (logger_info (logger this) ("  Admin key:       " ++ adminKey this)) ;;
  call (logger_info (logger this)
          ("  Backend URL:     " ++ nullish (backendUrl this) "undefined")).

(** [startBackend(backendDir)]. *)
Definition startBackend (backendDir : string) : Method unit :=
  spawn backendDir ;;
  waitForReady.

(** [deploy()]. *)
Definition deploy : Method unit :=
  this <- get ;;
  if negb (truthy_number (port this))
  then throw (new_Error "Backend not started")
  else
    let backendUrl := "http://localhost:" ++ template_number (port this) in
    deployResult <- spawnSync "bun"
                      ["convex"; "deploy"; "--admin-key"; adminKey this; "--url"; backendUrl]
                      (projectDir this) (deployTimeout this) ;;
    match error deployResult with
    | Some e => throw (new_Error ("Failed to spawn convex deploy: " ++ message e))
    | None =>
        if match status deployResult with
           | Some 0 => false
           | _ => true
           end
        then throw (new_Error
               ("Failed to deploy (exit code " ++ template_nullable (status deployResult)
                  ++ "):" ++ String (ascii_of_nat 10) ""
                  ++ (stdout deployResult ++ stderr deployResult)))
        else ret tt
    end.

(** [setEnv(name, value)]. *)
Definition setEnv (name value : string) : Method unit :=
  this <- get ;;
  if negb (truthy_number (port this))
  then throw (new_Error "Backend not started")
  else
    let backendUrl := "http://localhost:" ++ template_number (port this) in
    response <- callE (fetch (backendUrl ++ "/api/v1/update_environment_variables")
                  {| method := "POST";
                     headers := [ ("Content-Type", "application/json");
                                  ("Authorization", "Convex " ++ adminKey this) ];
                     body := EnvChanges [(name, value)] |}) ;;
    if negb (ok response)
    then
      let errorText := resp_text response in
      throw (new_Error ("Failed to set " ++ name ++ " env via API ("
                          ++ String_of_number (resp_status response) ++ "): " ++ errorText))
    else ret tt.

(** [runFunction(functionName, args)]. *)
Definition runFunction (functionName args : string) : Method string :=
  this <- get ;;
  if negb (truthy_number (port this))
  then throw (new_Error "Backend not started")
  else
    let backendUrl := "http://localhost:" ++ template_number (port this) in
    response <- callE (fetch (backendUrl ++ "/api/function")
                  {| method := "POST";
                     headers := [ ("Content-Type", "application/json");
                                  ("Convex-Client", "convex-vite-plugin");
                                  ("Authorization", "Convex " ++ adminKey this) ];
                     body := FunctionCall functionName "json" args |}) ;;
    if negb (ok response)
    then
      let errorText := resp_text response in
      throw (new_Error ("Failed to run " ++ functionName ++ " ("
                          ++ String_of_number (resp_status response) ++ "): " ++ errorText))
    else callE (response_json_value response).

(** [stop(cleanup)]. *)
Definition stop (cleanup : bool) : Method unit :=
  this <- get ;;
  match process this with
  | None => ret tt
  | Some child =>
      match pid child with
      | None => ret tt
      | Some pid =>
          try_catch (callE (process_kill pid "SIGKILL")) (fun _ => ret tt) ;;
          put (set_process None this) ;;
          if cleanup
          then
            call (logger_info (logger this) "Cleaning up backend files...") ;;
            callE (fsp_rm (backendDir this) true)
          else ret tt
      end
  end.

(** [invoke op this]: the caller invokes one method and keeps the instance,
    whatever way the method completes. *)
Definition invoke (op : Op) (this : ConvexBackend) : Prog ConvexBackend :=
  match op with
  | op_getAdminKey => pbind (getAdminKey this) (fun r => Ret (fst r))
  | op_spawn dir => pbind (spawn dir this) (fun r => Ret (fst r))
  | op_waitForReady => pbind (waitForReady this) (fun r => Ret (fst r))
  | op_startBackend dir => pbind (startBackend dir this) (fun r => Ret (fst r))
  | op_deploy => pbind (deploy this) (fun r => Ret (fst r))
  | op_setEnv name value => pbind (setEnv name value this) (fun r => Ret (fst r))
  | op_runFunction name args => pbind (runFunction name args this) (fun r => Ret (fst r))
  | op_stop cleanup => pbind (stop cleanup this) (fun r => Ret (fst r))
  end.

(** [session ops this]: the caller invokes the methods [ops] one after the
    other on the same instance. *)
Fixpoint session (ops : list Op) (this : ConvexBackend) : Prog ConvexBackend :=
  match ops with
  | [] => Ret this
  | op :: rest => pbind (invoke op this) (session rest)
  end.

End Class.




(** Classification of the recorded calls. *)
Definition is_spawn (e : Event) : bool :=
  match e with
  | Ev c _ =>
      match c with
      | childProcess_spawn _ _ _ _ => true
      | _ => false
      end
  end.

Definition is_spawnSync (e : Event) : bool :=
  match e with
  | Ev c _ =>
      match c with
      | childProcess_spawnSync _ _ _ _ => true
      | _ => false
      end
  end.

Definition is_generateKeyPair (e : Event) : bool :=
  match e with
  | Ev c _ =>
      match c with
      | generateKeyPair _ => true
      | _ => false
      end
  end.

Definition is_fetch (e : Event) : bool :=
  match e with
  | Ev c _ =>
      match c with
      | fetch _ _ => true
      | _ => false
      end
  end.

Definition is_sleep (e : Event) : bool :=
  match e with
  | Ev c _ =>
      match c with
      | sleep _ => true
      | _ => false
      end
  end.

(** The methods that create the backend process. *)
Definition spawns (op : Op) : bool :=
  match op with
  | op_spawn _ | op_startBackend _ => true
  | _ => false
  end.

(** The answer of a probe counts as ready when it is a 2xx response. *)
Definition probe_ready (a : Error + Response) : bool :=
  match a with
  | inr response => ok response
  | inl _ => false
  end.

(** [Within allowed post p]: every call [p] can make is [allowed], and every
    value it can return satisfies [post], whatever the answers. *)
Inductive Within (A : Type) (allowed : Event -> bool) (post : A -> Prop) : Prog A -> Prop :=
| Within_Ret : forall a : A, post a -> Within allowed post (Ret a)
| Within_Vis : forall (X : Type) (c : Call X) (k : X -> Prog A),
    (forall x : X, allowed (Ev c x) = true) ->
    (forall x : X, Within allowed post (k x)) ->
    Within allowed post (Vis c k).

(* ================================================================== *)
(** ** Vocabulary of the statements *)
(* ================================================================== *)

(** Neither the credential generator nor the creation of a process. *)
Definition quiet (e : Event) : bool :=
  negb (is_generateKeyPair e) && negb (is_spawn e).

Definition no_generator (e : Event) : bool := negb (is_generateKeyPair e).

Definition no_spawn (e : Event) : bool := negb (is_spawn e).

(** [this] up to its process handle. *)
Definition same_configuration (this this' : ConvexBackend) : Prop :=
  exists q : option ChildProcess, this' = set_process q this.

(** What [waitForReady] logs once the backend is ready. *)
Definition ready_log (this : ConvexBackend) : list Event :=
  [ Ev (logger_info (logger this) "Backend ready") tt;
    Ev (logger_info (logger this) ("  Instance name:   " ++ instanceName this)) tt;
    Ev (logger_info (logger this) ("  Instance secret: " ++ instanceSecret this)) tt;
    Ev (logger_info (logger this) ("  Admin key:       " ++ adminKey this)) tt;
    Ev (logger_info (logger this)
          ("  Backend URL:     " ++ nullish (backendUrl this) "undefined")) tt ].

(** The URL [healthCheck] probes. *)
Definition version_url (this : ConvexBackend) : string :=
  "http://localhost:" ++ template_number (port this) ++ "/version".

(** The command [deploy] runs. *)
Definition deploy_command (this : ConvexBackend) : Call SpawnSyncReturns :=
  childProcess_spawnSync "bun"
    ["convex"; "deploy"; "--admin-key"; adminKey this; "--url";
     "http://localhost:" ++ template_number (port this)]
    (projectDir this) (deployTimeout this).

(** The request [setEnv] sends. *)
Definition setEnv_request (name value : string) (this : ConvexBackend) : Call (Error + Response) :=
  fetch (("http://localhost:" ++ template_number (port this))
           ++ "/api/v1/update_environment_variables")
        {| method := "POST";
           headers := [ ("Content-Type", "application/json");
                        ("Authorization", "Convex " ++ adminKey this) ];
           body := EnvChanges [(name, value)] |}.

(** The calls of [spawn], in order. *)
Definition spawn_mkdir (path_join : list string -> string) (dir : string) : Call (Error + unit) :=
  fs_mkdirSync (path_join [dir; "convex_local_storage"]) true.

Definition spawn_download (this : ConvexBackend) : Call (Error + string) :=
  downloadConvexBinary
    {| cacheTtlMs := binaryCacheTtl this;
       version := binaryVersion this;
       cacheDir := binaryCacheDir this |}
    (logger this).

Definition spawn_create (path_join : list string -> string) (dir binary : string)
           (this : ConvexBackend) : Call ChildProcess :=
  childProcess_spawn binary
    [ "--port"; template_number (port this);
      "--site-proxy-port"; template_number (siteProxyPort this);
      "--instance-name"; instanceName this;
      "--instance-secret"; instanceSecret this;
      "--local-storage"; path_join [dir; "convex_local_storage"];
      path_join [dir; "convex_local_backend.sqlite3"] ]
    dir (stdio this).

Definition spawn_log (this : ConvexBackend) : Call unit :=
  logger_info (logger this)
    ("Backend spawned on port " ++ template_number (port this) ++ " (waiting for ready...)").

(* ================================================================== *)
(** ** Concrete worlds and instances *)
(* ================================================================== *)

(** [path.join] on POSIX for segments that need no normalisation. *)
Definition posix_join (parts : list string) : string := String.concat "/" parts.

Definition ECONNREFUSED : Error :=
  {| message := "fetch failed"; code := Some "ECONNREFUSED" |}.

Definition ESRCH : Error :=
  {| message := "kill ESRCH"; code := Some "ESRCH" |}.

Definition ENOENT : Error :=
  {| message := "ENOENT: no such file or directory, rm"; code := Some "ENOENT" |}.

(** A world in which everything works: the backend gets pid 4242, every
    request is answered 200, the deploy command exits 0. *)
Definition calm : Oracle :=
  fun (X : Type) (_ : nat) (c : Call X) =>
    match c in Call T return T with
    | process_cwd => "/work"
    | crypto_randomBytes_hex _ => "000102030405060708090a0b0c0d0e0f"
    | generateKeyPair _ =>
        {| keys_instanceSecret := "generated-secret"; keys_adminKey := "generated-admin-key" |}
    | fs_mkdirSync _ _ => inr tt
    | downloadConvexBinary _ _ => inr "/cache/convex-local-backend"
    | childProcess_spawn _ _ _ _ => {| pid := Some 4242 |}
    | childProcess_spawnSync _ _ _ _ =>
        {| error := None; status := Some 0; stdout := "deployed"; stderr := "" |}
    | logger_info _ _ => tt
    | fetch _ _ => inr {| resp_status := 200; resp_text := "ok" |}
    | response_json_value _ => inr "null"
    | sleep _ => tt
    | process_kill _ _ => inr tt
    | fsp_rm _ _ => inr tt
    end.

(** As [calm], but the process is already gone when it is signalled and the
    working directory cannot be removed. *)
Definition rough_teardown : Oracle :=
  fun (X : Type) (n : nat) (c : Call X) =>
    match c in Call T return T -> T with
    | process_kill _ _ => fun _ => inl ESRCH
    | fsp_rm _ _ => fun _ => inl ENOENT
    | _ => fun dflt => dflt
    end (calm n c).

(** As [calm], but the first [refused] calls of the run that are probes are
    refused, or all of them when [refused] is [None]. *)
Definition slow_start (refused : option nat) : Oracle :=
  fun (X : Type) (n : nat) (c : Call X) =>
    match c in Call T return T -> T with
    | fetch _ _ => fun dflt =>
        match refused with
        | None => inl ECONNREFUSED
        | Some m => if (n <? m)%nat then inl ECONNREFUSED else dflt
        end
    | _ => fun dflt => dflt
    end (calm n c).

(** As [calm], but the backend answers 500 with a diagnostic, the deploy
    command exits 1, and no pid is assigned on spawn. *)
Definition failing : Oracle :=
  fun (X : Type) (n : nat) (c : Call X) =>
    match c in Call T return T -> T with
    | fetch _ _ => fun _ =>
        inr {| resp_status := 500; resp_text := "internal error" |}
    | childProcess_spawnSync _ _ _ _ => fun _ =>
        {| error := None; status := Some 1; stdout := "compiling"; stderr := "type error" |}
    | childProcess_spawn _ _ _ _ => fun _ => {| pid := None |}
    | _ => fun dflt => dflt
    end (calm n c).


(** [new ConvexBackend({}, logger)] in the calm world. *)
Definition fresh : ConvexBackend :=
  snd (run calm 0 (constructor posix_join Options.empty 0%nat)).

(** The same instance after [spawn(this.backendDir)]. *)
Definition spawned : ConvexBackend :=
  fst (snd (run calm 0 (spawn posix_join (backendDir fresh) fresh))).

(** The same instance after [stop()]. *)
Definition stopped : ConvexBackend :=
  fst (snd (run calm 0 (stop true spawned))).

(** An instance with a health-check timeout of 50ms. *)
Definition impatient_options : ConvexBackendOptions :=
  Options.mk None None None None None None None None (Some 50) None None None.

Definition impatient : ConvexBackend :=
  snd (run calm 0 (constructor posix_join impatient_options 0%nat)).



(** An instance with a deploy timeout of -1. *)
Definition negative_timeout_options : ConvexBackendOptions :=
  Options.mk None None None None None None None (Some (-1)) None None None None.

Definition misconfigured : ConvexBackend :=
  snd (run calm 0 (constructor posix_join negative_timeout_options 0%nat)).

(** Options that give both credentials, one of them the empty string. *)
Definition empty_secret_options : ConvexBackendOptions :=
  Options.mk None (Some "") (Some "caller-admin-key")
    None None None None None None None None None.

(** Options that give both credentials. *)
Definition both_credentials_options : ConvexBackendOptions :=
  Options.mk (Some "dev") (Some "caller-secret") (Some "caller-admin-key")
    None None None None None None None None None.

(** Options that give the secret only. *)
Definition secret_only_options : ConvexBackendOptions :=
  Options.mk None (Some "caller-secret") None
    None None None None None None None None None.

(* ================================================================== *)
(** ** Further vocabulary and worlds for the class *)
(* ================================================================== *)

(** The request [runFunction] sends. *)
Definition runFunction_request (functionName args : string) (this : ConvexBackend)
  : Call (Error + Response) :=
  fetch (("http://localhost:" ++ template_number (port this)) ++ "/api/function")
        {| method := "POST";
           headers := [ ("Content-Type", "application/json");
                        ("Convex-Client", "convex-vite-plugin");
                        ("Authorization", "Convex " ++ adminKey this) ];
           body := FunctionCall functionName "json" args |}.

Definition is_kill (e : Event) : bool :=
  match e with
  | Ev c _ =>
      match c with
      | process_kill _ _ => true
      | _ => false
      end
  end.

Definition is_rm (e : Event) : bool :=
  match e with
  | Ev c _ =>
      match c with
      | fsp_rm _ _ => true
      | _ => false
      end
  end.

Definition ENOTFOUND : Error :=
  {| message := "fetch failed"; code := Some "ENOTFOUND" |}.

Definition EACCES : Error :=
  {| message := "EACCES: permission denied, mkdir"; code := Some "EACCES" |}.

(** As [calm], but no request gets through. *)
Definition offline : Oracle :=
  fun (X : Type) (n : nat) (c : Call X) =>
    match c in Call T return T -> T with
    | fetch _ _ => fun _ => inl ENOTFOUND
    | downloadConvexBinary _ _ => fun _ => inl ENOTFOUND
    | _ => fun dflt => dflt
    end (calm n c).

(** As [calm], but directories cannot be made. *)
Definition readonly_disk : Oracle :=
  fun (X : Type) (n : nat) (c : Call X) =>
    match c in Call T return T -> T with
    | fs_mkdirSync _ _ => fun _ => inl EACCES
    | _ => fun dflt => dflt
    end (calm n c).

(** As [calm], but every process created gets a pid of its own: 5000 plus
    the index of the call that created it. *)
Definition fresh_pids : Oracle :=
  fun (X : Type) (n : nat) (c : Call X) =>
    match c in Call T return T -> T with
    | childProcess_spawn _ _ _ _ => fun _ => {| pid := Some (5000 + Z.of_nat n) |}
    | _ => fun dflt => dflt
    end (calm n c).

(** As [calm], but the deploy command is ended by a signal: no error, no
    exit status. *)
Definition signalled_deploy : Oracle :=
  fun (X : Type) (n : nat) (c : Call X) =>
    match c in Call T return T -> T with
    | childProcess_spawnSync _ _ _ _ => fun _ =>
        {| error := None; status := None; stdout := "half"; stderr := "" |}
    | _ => fun dflt => dflt
    end (calm n c).

(** Options that give port 0. *)
Definition port_zero_options : ConvexBackendOptions :=
  Options.mk None None None (Some 0) None None None None None None None None.

(** [fresh] after a [spawn] that got no pid. *)
Definition unborn : ConvexBackend :=
  fst (snd (run failing 0 (spawn posix_join (backendDir fresh) fresh))).

(* ================================================================== *)
(** ** The utilities of the lint plugin (oxlint-plugin-convex, utils.ts) *)
(* ================================================================== *)

(** Strings are sequences of 8-bit code units here; the utilities treat all
    code units alike apart from the ASCII characters named below. *)

Module Chars.
Definition backslash : ascii := ascii_of_nat 92.
Definition slash : ascii := ascii_of_nat 47.
Definition star : ascii := ascii_of_nat 42.
Definition question : ascii := ascii_of_nat 63.
Definition dot : ascii := ascii_of_nat 46.
Definition caret : ascii := ascii_of_nat 94.
Definition dollar : ascii := ascii_of_nat 36.
Definition plus : ascii := ascii_of_nat 43.
Definition lparen : ascii := ascii_of_nat 40.
Definition rparen : ascii := ascii_of_nat 41.
Definition lbracket : ascii := ascii_of_nat 91.
Definition rbracket : ascii := ascii_of_nat 93.
Definition lbrace : ascii := ascii_of_nat 123.
Definition rbrace : ascii := ascii_of_nat 125.
Definition bar : ascii := ascii_of_nat 124.
Definition line_feed : ascii := ascii_of_nat 10.
Definition carriage_return : ascii := ascii_of_nat 13.

Definition one_of (cs : list ascii) (c : ascii) : bool :=
  existsb (Ascii.eqb c) cs.
End Chars.

Import Chars.

(** The part of JavaScript's [RegExp] that the utilities produce: sources
    of the form [^ item ... item $] where an item is a character (a syntax
    character written with a backslash before it), [.], or the class [[^/]],
    each one possibly followed by [*]. *)
Module RegExp.

Inductive Atom : Type :=
| Lit (c : ascii)
| Dot
| NotSlash.

Inductive Item : Type :=
| One (a : Atom)
| Star (a : Atom).

Definition t : Type := list Item.

(** The syntax characters of a pattern. *)
Definition syntax_char (c : ascii) : bool :=
  one_of [backslash; caret; dollar; dot; star; plus; question; lparen; rparen;
          lbracket; rbracket; lbrace; rbrace; bar] c.

(** The items up to the closing [$]. *)
Fixpoint parse_items (s : string) : option (list Item) :=
  match s with
  | EmptyString => None
  | String c r =>
      if Ascii.eqb c dollar
      then match r with
           | EmptyString => Some []
           | String _ _ => None
           end
      else if Ascii.eqb c backslash
      then match r with
           | EmptyString => None
           | String e r' =>
               if syntax_char e
               then match r' with
                    | String q r'' =>
                        if Ascii.eqb q star
                        then option_map (cons (Star (Lit e))) (parse_items r'')
                        else option_map (cons (One (Lit e))) (parse_items r')
                    | EmptyString => option_map (cons (One (Lit e))) (parse_items r')
                    end
               else None
           end
      else if Ascii.eqb c lbracket
      then match r with
           | String c1 (String c2 (String c3 r')) =>
               if Ascii.eqb c1 caret && Ascii.eqb c2 slash && Ascii.eqb c3 rbracket
               then match r' with
                    | String q r'' =>
                        if Ascii.eqb q star
                        then option_map (cons (Star NotSlash)) (parse_items r'')
                        else option_map (cons (One NotSlash)) (parse_items r')
                    | EmptyString => option_map (cons (One NotSlash)) (parse_items r')
                    end
               else None
           | _ => None
           end
      else
        let a := if Ascii.eqb c dot then Some Dot
                 else if syntax_char c then None
                 else Some (Lit c) in
        match a with
        | None => None
        | Some a =>
            match r with
            | String q r' =>
                if Ascii.eqb q star
                then option_map (cons (Star a)) (parse_items r')
                else option_map (cons (One a)) (parse_items r)
            | EmptyString => option_map (cons (One a)) (parse_items r)
            end
        end
  end.

(** [new RegExp(source)]: [None] when the source is outside the fragment,
    which covers every source of these shapes that the constructor rejects
    with a SyntaxError. *)
Definition create (source : string) : option t :=
  match source with
  | String c r => if Ascii.eqb c caret then parse_items r else None
  | EmptyString => None
  end.

(** [.] matches any character but a line terminator; [[^/]] any character
    but a slash. *)
Definition atom_matches (a : Atom) (c : ascii) : bool :=
  match a with
  | Lit x => Ascii.eqb c x
  | Dot => negb (one_of [line_feed; carriage_return] c)
  | NotSlash => negb (Ascii.eqb c slash)
  end.

(** [r.test(s)] for a pattern anchored at both ends: some way of matching
    the items consumes exactly [s]. *)
Fixpoint test (r : t) : string -> bool :=
  match r with
  | [] => fun s => match s with
                   | EmptyString => true
                   | String _ _ => false
                   end
  | One a :: r' =>
      fun s => match s with
               | EmptyString => false
               | String c s' => atom_matches a c && test r' s'
               end
  | Star a :: r' =>
      fix star (s : string) : bool :=
        test r' s
        || match s with
           | EmptyString => false
           | String c s' => atom_matches a c && star s'
           end
  end.

End RegExp.

Module Utils.

(** [s.replace(/[class]/g, f)]: every character goes through [f]. *)
Fixpoint replace_each (f : ascii -> string) (s : string) : string :=
  match s with
  | EmptyString => EmptyString
  | String c r => f c ++ replace_each f r
  end.

(** [s.includes(c)] for a one-character string. *)
Fixpoint includes (c : ascii) (s : string) : bool :=
  match s with
  | EmptyString => false
  | String x r => Ascii.eqb x c || includes c r
  end.

(** [s.startsWith(p)]. *)
Fixpoint startsWith (p s : string) : bool :=
  match p, s with
  | EmptyString, _ => true
  | String a p', String b s' => Ascii.eqb a b && startsWith p' s'
  | String _ _, EmptyString => false
  end.

(** [s.endsWith(p)]. *)
Fixpoint endsWith (p s : string) : bool :=
  String.eqb p s
  || match s with
     | EmptyString => false
     | String _ s' => endsWith p s'
     end.

(** [s.slice(0, -1)]. *)
Fixpoint slice_0_minus_1 (s : string) : string :=
  match s with
  | EmptyString => EmptyString
  | String _ EmptyString => EmptyString
  | String c r => String c (slice_0_minus_1 r)
  end.

(** [s.split(c)] for a one-character separator: never an empty array. *)
Fixpoint split (c : ascii) (s : string) : list string :=
  match s with
  | EmptyString => [EmptyString]
  | String x r =>
      if Ascii.eqb x c
      then EmptyString :: split c r
      else match split c r with
           | h :: t => String x h :: t
           | [] => [String x EmptyString]
           end
  end.

(** [a.pop()]: the last element, [undefined] on an empty array. *)
Fixpoint pop (a : list string) : option string :=
  match a with
  | [] => None
  | [x] => Some x
  | _ :: r => pop r
  end.

(** The class [[.+^${}()|[\]\\]] of [isIgnored]. *)
Definition ignoreSpecialChars (c : ascii) : bool :=
  one_of [dot; plus; caret; dollar; lbrace; rbrace; lparen; rparen; bar;
          lbracket; rbracket; backslash] c.

(** The source [isIgnored] hands to [new RegExp]: three replacements in a
    row, between [^] and [$]. *)
Definition ignore_source (pattern : string) : string :=
  String caret
    (replace_each (fun c => if Ascii.eqb c question then "." else String c "")
       (replace_each (fun c => if Ascii.eqb c star then ".*" else String c "")
          (replace_each (fun c => if ignoreSpecialChars c
                                  then String backslash (String c "")
                                  else String c "")
                        pattern))
     ++ String dollar "").

(** The callback of [patterns.some] in [isIgnored]; [None] when
    [new RegExp] throws. *)
Definition isIgnored_pattern (key pattern : string) : option bool :=
  if String.eqb key pattern then Some true
  else if endsWith ".*" pattern && negb (includes star pattern)
  then Some (startsWith (slice_0_minus_1 pattern) key)
  else if includes star pattern || includes question pattern
  then match RegExp.create (ignore_source pattern) with
       | Some regex => Some (RegExp.test regex key)
       | None => None
       end
  else Some false.

(** [isIgnored(key, patterns)]: [some] stops at the first pattern that
    answers true. *)
Fixpoint isIgnored (key : string) (patterns : list string) : option bool :=
  match patterns with
  | [] => Some false
  | pattern :: rest =>
      match isIgnored_pattern key pattern with
      | Some true => Some true
      | Some false => isIgnored key rest
      | None => None
      end
  end.

(** [normalizePath(filePath)]. *)
Definition normalizePath (filePath : string) : string :=
  replace_each (fun c => if Ascii.eqb c backslash then "/" else String c "") filePath.

(** The class [[\\^$.*+?()[\]{}|]] of [globToRegExp]. *)
Definition regexSpecialChars (c : ascii) : bool :=
  one_of [backslash; caret; dollar; dot; star; plus; question; lparen; rparen;
          lbracket; rbracket; lbrace; rbrace; bar] c.

(** [normalized[i] === "*"]. *)
Definition star_at (normalized : string) (i : nat) : bool :=
  match String.get i normalized with
  | Some c => Ascii.eqb c star
  | None => false
  end.

(** [while (normalized[i + 1] === "*") i++]: the value of [i] after the
    loop. *)
Fixpoint skip_stars (fuel : nat) (normalized : string) (i : nat) : nat :=
  match fuel with
  | O => i
  | S fuel' =>
      if star_at normalized (i + 1)
      then skip_stars fuel' normalized (i + 1)
      else i
  end.

(** The [for] loop of [globToRegExp] from index [i] on, [regex] being what
    was built so far; every round ends with [i++]. *)
Fixpoint glob_loop (fuel : nat) (normalized : string) (i : nat) (regex : string) : string :=
  match fuel with
  | O => regex
  | S fuel' =>
      match String.get i normalized with
      | None => regex
      | Some char =>
          if Ascii.eqb char star
          then
            if star_at normalized (i + 1)
            then glob_loop fuel' normalized
                           (skip_stars (String.length normalized) normalized i + 1)
                           (regex ++ ".*")
            else glob_loop fuel' normalized (i + 1) (regex ++ "[^/]*")
          else if Ascii.eqb char question
          then glob_loop fuel' normalized (i + 1) (regex ++ "[^/]")
          else if regexSpecialChars char
          then glob_loop fuel' normalized (i + 1)
                         (regex ++ String backslash (String char ""))
          else glob_loop fuel' normalized (i + 1) (regex ++ String char "")
      end
  end.

(** The source [globToRegExp] hands to [new RegExp]. *)
Definition glob_source (pattern : string) : string :=
  let normalized := normalizePath pattern in
  glob_loop (String.length normalized) normalized 0 (String caret "") ++ String dollar "".

(** [globToRegExp(pattern)]; [None] when [new RegExp] throws. *)
Definition globToRegExp (pattern : string) : option RegExp.t :=
  RegExp.create (glob_source pattern).

Record GlobMatcher : Type := mkMatcher {
  pattern : string;
  regex : RegExp.t;
  hasSlash : bool
}.

(** [buildGlobMatchers(patterns)]; [None] when [globToRegExp] throws for
    one of them. *)
Fixpoint buildGlobMatchers (patterns : list string) : option (list GlobMatcher) :=
  match patterns with
  | [] => Some []
  | p :: rest =>
      match globToRegExp p with
      | None => None
      | Some r =>
          option_map
            (cons {| pattern := p; regex := r; hasSlash := includes slash (normalizePath p) |})
            (buildGlobMatchers rest)
      end
  end.

(** The [for ... of] loop of [matchesAnyGlob]. *)
Fixpoint matches_loop (normalizedPath baseName : string) (matchers : list GlobMatcher) : bool :=
  match matchers with
  | [] => false
  | matcher :: rest =>
      let target := if hasSlash matcher then normalizedPath else baseName in
      if RegExp.test (regex matcher) target
      then true
      else matches_loop normalizedPath baseName rest
  end.

(** [matchesAnyGlob(filePath, matchers)]. *)
Definition matchesAnyGlob (filePath : string) (matchers : list GlobMatcher) : bool :=
  match matchers with
  | [] => false
  | _ :: _ =>
      let normalizedPath := normalizePath filePath in
      let baseName := nullish (pop (split slash normalizedPath)) normalizedPath in
      matches_loop normalizedPath baseName matchers
  end.

End Utils.

Import Utils.

(** *** What the sources mean *)

(** The source of an item: a syntax character gets a backslash. *)
Definition render_atom (a : RegExp.Atom) : string :=
  match a with
  | RegExp.Lit c =>
      if RegExp.syntax_char c then String backslash (String c "") else String c ""
  | RegExp.Dot => "."
  | RegExp.NotSlash => "[^/]"
  end.

Definition render_item (i : RegExp.Item) : string :=
  match i with
  | RegExp.One a => render_atom a
  | RegExp.Star a => render_atom a ++ "*"
  end.

Fixpoint render (r : RegExp.t) : string :=
  match r with
  | [] => ""
  | i :: r' => render_item i ++ render r'
  end.

(** The items of a glob, read off a normalized pattern from left to right:
    a run of two or more stars is [.*], a single star [[^/]*], a question
    mark [[^/]], any other character itself.  [in_run] says that the
    characters before were stars already accounted for. *)
Fixpoint glob_items (in_run : bool) (normalized : string) : RegExp.t :=
  match normalized with
  | EmptyString => []
  | String c r =>
      if Ascii.eqb c star
      then
        if in_run
        then glob_items true r
        else match r with
             | String c' _ =>
                 if Ascii.eqb c' star
                 then RegExp.Star RegExp.Dot :: glob_items true r
                 else RegExp.Star RegExp.NotSlash :: glob_items false r
             | EmptyString => RegExp.Star RegExp.NotSlash :: glob_items false r
             end
      else if Ascii.eqb c question
      then RegExp.One RegExp.NotSlash :: glob_items false r
      else RegExp.One (RegExp.Lit c) :: glob_items false r
  end.

(** The item of one character of an [isIgnored] pattern. *)
Definition ignore_item (c : ascii) : RegExp.Item :=
  if Ascii.eqb c star then RegExp.Star RegExp.Dot
  else if Ascii.eqb c question then RegExp.One RegExp.Dot
  else RegExp.One (RegExp.Lit c).

Fixpoint ignore_items (pattern : string) : RegExp.t :=
  match pattern with
  | EmptyString => []
  | String c r => ignore_item c :: ignore_items r
  end.

(** The string from index [i] on. *)
Fixpoint drop (i : nat) (s : string) : string :=
  match i, s with
  | O, _ => s
  | S i', String _ r => drop i' r
  | S _, EmptyString => EmptyString
  end.

(** The string without the stars it starts with, and their number. *)
Fixpoint drop_stars (s : string) : string :=
  match s with
  | String c r => if Ascii.eqb c star then drop_stars r else s
  | EmptyString => EmptyString
  end.

Fixpoint leading_stars (s : string) : nat :=
  match s with
  | String c r => if Ascii.eqb c star then S (leading_stars r) else O
  | EmptyString => O
  end.

(** Number of occurrences of a character. *)
Fixpoint count (c : ascii) (s : string) : nat :=
  match s with
  | EmptyString => O
  | String x r => if Ascii.eqb x c then S (count c r) else count c r
  end.

(** Two stars in a row somewhere. *)
Fixpoint double_star (s : string) : bool :=
  match s with
  | String c r =>
      match r with
      | String c' _ => (Ascii.eqb c star && Ascii.eqb c' star) || double_star r
      | EmptyString => false
      end
  | EmptyString => false
  end.

(** No character of [s] is a line terminator. *)
Fixpoint one_line (s : string) : bool :=
  match s with
  | EmptyString => true
  | String c r => negb (one_of [line_feed; carriage_return] c) && one_line r
  end.

(* ================================================================== *)
(** ** Running programs *)
(* ================================================================== *)

Local Open Scope list_scope.

Lemma run_pbind (A B : Type) (o : Oracle) (p : Prog A) (f : A -> Prog B) :
  forall n : nat,
    run o n (pbind p f) =
    (fst (run o n p) ++ fst (run o (n + List.length (fst (run o n p))) (f (snd (run o n p)))),
     snd (run o (n + List.length (fst (run o n p))) (f (snd (run o n p))))).
Proof.
  induction p as [a | X c k IH]; intros n; simpl.
  - rewrite Nat.add_0_r. now destruct (run o n (f a)).
  - rewrite IH. simpl. now rewrite Nat.add_succ_r.
Qed.

(** A method that completed normally hands the instance to the rest. *)
Lemma run_bind_normal (S A B : Type) (o : Oracle) (m : M S A) (f : A -> M S B)
      (n : nat) (s s' : S) (a : A) :
  snd (run o n (m s)) = (s', Normal a) ->
  run o n (bind m f s) =
  (fst (run o n (m s)) ++ fst (run o (n + List.length (fst (run o n (m s)))) (f a s')),
   snd (run o (n + List.length (fst (run o n (m s)))) (f a s'))).
Proof.
  intros H. unfold bind. rewrite run_pbind, H. reflexivity.
Qed.

(** A method that threw ends the sequence. *)
Lemma run_bind_throws (S A B : Type) (o : Oracle) (m : M S A) (f : A -> M S B)
      (n : nat) (s s' : S) (e : Error) :
  snd (run o n (m s)) = (s', Throws e) ->
  run o n (bind m f s) = (fst (run o n (m s)), (s', Throws e)).
Proof.
  intros H. unfold bind. rewrite run_pbind, H. simpl.
  now rewrite app_nil_r.
Qed.

Lemma Within_pbind (A B : Type) (allowed : Event -> bool)
      (mid : A -> Prop) (post : B -> Prop) (p : Prog A) (f : A -> Prog B) :
  Within allowed mid p ->
  (forall a : A, mid a -> Within allowed post (f a)) ->
  Within allowed post (pbind p f).
Proof.
  intros Hp Hf. induction Hp as [a Ha | X c k Hc _ IH]; simpl.
  - now apply Hf.
  - constructor; [exact Hc | exact IH].
Qed.

Lemma Within_weaken (A : Type) (allowed : Event -> bool) (post post' : A -> Prop) (p : Prog A) :
  (forall a : A, post a -> post' a) ->
  Within allowed post p -> Within allowed post' p.
Proof.
  intros Hw Hp. induction Hp; constructor; auto.
Qed.

(** What [Within] promises holds of every run. *)
Lemma Within_run (A : Type) (allowed : Event -> bool) (post : A -> Prop) (p : Prog A) :
  Within allowed post p ->
  forall (o : Oracle) (n : nat),
    forallb allowed (fst (run o n p)) = true /\ post (snd (run o n p)).
Proof.
  induction 1 as [a Ha | X c k Hc _ IH]; intros o n; simpl.
  - now split.
  - destruct (IH (o X n c) o (S n)) as [Ht Hp].
    split; [| exact Hp]. now rewrite Hc, Ht.
Qed.


Lemma string_app_assoc (a b c : string) : ((a ++ b) ++ c = a ++ (b ++ c))%string.
Proof.
  induction a as [| ch a IH]; simpl; [reflexivity | now rewrite IH].
Qed.

Lemma string_app_nil_r (a : string) : (a ++ "" = a)%string.
Proof.
  induction a as [| ch a IH]; simpl; [reflexivity | now rewrite IH].
Qed.

(* ================================================================== *)
(** ** stop *)
(* ================================================================== *)

(** Without a handle, or with a handle that never got a pid, [stop] returns
    at its first line. *)
Lemma stop_early_return (o : Oracle) (n : nat) (cleanup : bool) (this : ConvexBackend) :
  match process this with
  | None => True
  | Some child => pid child = None
  end ->
  run o n (stop cleanup this) = ([], (this, Normal tt)).
Proof.
  intros H. unfold stop, bind, get. simpl.
  destruct (process this) as [child |]; [| reflexivity].
  now rewrite H.
Qed.

(** With a handle that has a pid, [stop] signals the process, clears the
    handle, and removes the directory when asked. *)
Lemma stop_run (o : Oracle) (n : nat) (cleanup : bool) (this : ConvexBackend)
      (child : ChildProcess) (p : Z) :
  process this = Some child ->
  pid child = Some p ->
  run o n (stop cleanup this) =
  (Ev (process_kill p "SIGKILL") (o _ n (process_kill p "SIGKILL")) ::
     (if cleanup
      then [ Ev (logger_info (logger this) "Cleaning up backend files...") tt;
             Ev (fsp_rm (backendDir this) true)
                (o _ (2 + n)%nat (fsp_rm (backendDir this) true)) ]
      else []),
   (set_process None this,
    if cleanup
    then match o _ (2 + n)%nat (fsp_rm (backendDir this) true) with
         | inl e => Throws e
         | inr _ => Normal tt
         end
    else Normal tt)).
Proof.
  intros Hproc Hpid. unfold stop, bind, get. simpl.
  rewrite Hproc, Hpid. simpl.
  destruct (o _ n (process_kill p "SIGKILL")) as [e | []]; simpl;
    destruct cleanup; simpl; try reflexivity;
    destruct (o unit (S n) (logger_info (logger this) "Cleaning up backend files..."));
    destruct (o _ (S (S n)) (fsp_rm (backendDir this) true)) as [e' | []];
    reflexivity.
Qed.

(** Whatever the first [stop] met, it leaves nothing for a second one. *)
Lemma stop_leaves_no_pid (o : Oracle) (n : nat) (cleanup : bool) (this : ConvexBackend) :
  match process (fst (snd (run o n (stop cleanup this)))) with
  | None => True
  | Some child => pid child = None
  end.
Proof.
  destruct (process this) as [child |] eqn:Hproc.
  - destruct (pid child) as [p |] eqn:Hpid.
    + rewrite (stop_run o n cleanup this Hproc Hpid). simpl. exact I.
    + rewrite stop_early_return by now rewrite Hproc.
      simpl. now rewrite Hproc.
  - rewrite stop_early_return by now rewrite Hproc.
    simpl. now rewrite Hproc.
Qed.

(** C3.  For every instance whose handle is live (a process with a pid),
    [stop(cleanup)] first sends SIGKILL to that pid; the answer of the signal,
    an error for a process that has already exited included, has no part in
    how [stop] completes.  The handle is cleared and no other field changes.
    With [cleanup] the working directory is then removed recursively, and
    [stop] throws exactly when the removal fails, with the removal's own
    error and the handle already cleared.  Without [cleanup] nothing else is
    done and [stop] completes normally. *)
Theorem stop_kills_clears_and_cleans
        (o : Oracle) (n : nat) (cleanup : bool) (this : ConvexBackend)
        (child : ChildProcess) (p : Z) :
  process this = Some child ->
  pid child = Some p ->
  let r := run o n (stop cleanup this) in
  let removal := o _ (2 + n)%nat (fsp_rm (backendDir this) true) in
  hd_error (fst r) = Some (Ev (process_kill p "SIGKILL") (o _ n (process_kill p "SIGKILL")))
  /\ fst (snd r) = set_process None this
  /\ process (fst (snd r)) = None
  /\ (cleanup = true ->
      In (Ev (fsp_rm (backendDir this) true) removal) (fst r)
      /\ snd (snd r) = match removal with
                       | inl e => Throws e
                       | inr _ => Normal tt
                       end)
  /\ (cleanup = false ->
      fst r = [Ev (process_kill p "SIGKILL") (o _ n (process_kill p "SIGKILL"))]
      /\ snd (snd r) = Normal tt).
Proof.
  intros Hproc Hpid r removal. subst r removal.
  rewrite (stop_run o n cleanup this Hproc Hpid). simpl.
  split; [reflexivity |]. split; [reflexivity |]. split; [reflexivity |].
  split; intros ->; simpl; auto.
Qed.

(** C4.  [stop] is idempotent.  On an instance without a process handle it
    makes no call, changes nothing and completes normally.  And whatever a
    first [stop] met (live handle or not, signal delivered or not, directory
    removed or not), a second [stop] right after it makes no call, changes
    nothing and completes normally. *)
Theorem stop_idempotent
        (o : Oracle) (n : nat) (cleanup cleanup' : bool) (this : ConvexBackend) :
  (process this = None ->
   run o n (stop cleanup this) = ([], (this, Normal tt)))
  /\ (let first := run o n (stop cleanup this) in
      let this' := fst (snd first) in
      run o (n + List.length (fst first)) (stop cleanup' this') = ([], (this', Normal tt))).
Proof.
  split.
  - intros Hproc. apply stop_early_return. now rewrite Hproc.
  - simpl. apply stop_early_return, stop_leaves_no_pid.
Qed.

(* ================================================================== *)
(** ** The constructor *)
(* ================================================================== *)

Section Construction.

Variable path_join : list string -> string.

Lemma both_truthy_nonempty (secret key : string) :
  secret <> ""%string -> key <> ""%string ->
  both_truthy (Some secret) (Some key) = Some (secret, key).
Proof.
  intros Hs Hk. destruct secret; [congruence |]. destruct key; [congruence |].
  reflexivity.
Qed.

Lemma both_truthy_one_missing (secret key : option string) :
  secret = None \/ key = None -> both_truthy secret key = None.
Proof.
  intros [-> | ->]; [reflexivity | now destruct secret].
Qed.

(** The calls of a construction that keeps the credentials it was given:
    the working directory, when no project directory was given, and the
    random name of the backend directory. *)
Lemma constructor_run_supplied
      (o : Oracle) (n : nat) (options : ConvexBackendOptions) (logger : Logger)
      (secret key : string) :
  both_truthy (Options.instanceSecret options) (Options.adminKey options)
    = Some (secret, key) ->
  let r := run o n (constructor path_join options logger) in
  forallb (fun e => negb (is_generateKeyPair e) && negb (is_spawn e) && negb (is_spawnSync e))
          (fst r) = true
  /\ instanceSecret (snd r) = secret
  /\ adminKey (snd r) = key
  /\ process (snd r) = None.
Proof.
  intros Hboth. unfold constructor. rewrite Hboth.
  destruct (Options.projectDir options); simpl; auto.
Qed.

(** The calls of a construction that generates the credentials: as above,
    and then one call of the generator with the instance name. *)
Lemma constructor_run_generated
      (o : Oracle) (n : nat) (options : ConvexBackendOptions) (logger : Logger) :
  both_truthy (Options.instanceSecret options) (Options.adminKey options) = None ->
  let r := run o n (constructor path_join options logger) in
  let name := nullish (Options.instanceName options) "convex-local"%string in
  exists keys : KeyPair,
    filter is_generateKeyPair (fst r) = [Ev (generateKeyPair name) keys]
    /\ forallb (fun e => negb (is_spawn e) && negb (is_spawnSync e)) (fst r) = true
    /\ instanceSecret (snd r) = keys_instanceSecret keys
    /\ adminKey (snd r) = keys_adminKey keys
    /\ process (snd r) = None.
Proof.
  intros Hboth. unfold constructor. rewrite Hboth.
  destruct (Options.projectDir options); simpl; eexists; repeat split.
Qed.

End Construction.

(* ================================================================== *)
(** ** What the methods call and what they assign *)
(* ================================================================== *)

Lemma Within_allowed (A : Type) (allowed allowed' : Event -> bool) (post : A -> Prop) (p : Prog A) :
  (forall e : Event, allowed e = true -> allowed' e = true) ->
  Within allowed post p -> Within allowed' post p.
Proof.
  intros Hw Hp. induction Hp; constructor; auto.
Qed.

Lemma set_process_same (this : ConvexBackend) : set_process (process this) this = this.
Proof. now destruct this. Qed.

Ltac unfold_monad :=
  unfold spawnSync, bind, get, put, call, callE, throw, ret, try_catch.

(** The test a program is waiting on. *)
Ltac scrutinee p :=
  match p with
  | pbind ?q _ => scrutinee q
  | (if ?b then _ else _) => b
  | (if ?b then _ else _) _ => b
  | (match ?x with _ => _ end) => x
  | (match ?x with _ => _ end) _ => x
  end.

Ltac within_tree :=
  repeat (simpl;
          match goal with
          | |- Within _ _ (Ret _) => constructor
          | |- Within _ _ (Vis _ _) => constructor; [intros ?; reflexivity | intros ?]
          | |- Within _ _ ?p => let x := scrutinee p in destruct x
          end).

Section Methods.

Variable path_join : list string -> string.
Variable pollIntervalMs : Z.

Lemma getAdminKey_within (this : ConvexBackend) :
  Within quiet (fun r => fst r = this) (getAdminKey this).
Proof. unfold getAdminKey. unfold_monad. within_tree. reflexivity. Qed.

(** The prober only probes and sleeps, and it assigns nothing. *)
Lemma pollUntilOk_within (S : Type) (url : string) (timeoutMs : Z) (fuel : nat) :
  forall (elapsed : Z) (s : S),
    Within (fun e => is_fetch e || is_sleep e) (fun r => fst r = s)
           (pollUntilOk pollIntervalMs fuel url timeoutMs elapsed s).
Proof.
  induction fuel as [| fuel IH]; intros elapsed s; simpl.
  - unfold_monad. now constructor.
  - destruct (timeoutMs <=? elapsed).
    + unfold_monad. now constructor.
    + unfold_monad. simpl. constructor; [reflexivity |].
      intros [e | response]; simpl.
      * constructor; [reflexivity |]. intros _. apply IH.
      * destruct (ok response); simpl.
        -- now constructor.
        -- constructor; [reflexivity |]. intros _. apply IH.
Qed.

Lemma healthCheck_within (this : ConvexBackend) :
  Within quiet (fun r => fst r = this) (healthCheck pollIntervalMs this).
Proof.
  unfold healthCheck, waitForHttpOk. unfold_monad. simpl.
  destruct (negb (truthy_number (port this))); simpl.
  - now constructor.
  - eapply Within_allowed; [| apply pollUntilOk_within].
    intros [X c x] H. destruct c; try discriminate H; reflexivity.
Qed.

Lemma waitForReady_within (this : ConvexBackend) :
  Within quiet (fun r => fst r = this) (waitForReady pollIntervalMs this).
Proof.
  unfold waitForReady. unfold bind at 1.
  eapply Within_pbind; [apply healthCheck_within |].
  intros [this' c] Heq. simpl in Heq. subst this'. simpl.
  destruct c; unfold_monad; within_tree; reflexivity.
Qed.

Lemma deploy_within (this : ConvexBackend) :
  Within quiet (fun r => fst r = this) (deploy this).
Proof. unfold deploy. unfold_monad. within_tree; reflexivity. Qed.

Lemma setEnv_within (name value : string) (this : ConvexBackend) :
  Within quiet (fun r => fst r = this) (setEnv name value this).
Proof. unfold setEnv. unfold_monad. within_tree; reflexivity. Qed.

Lemma runFunction_within (functionName args : string) (this : ConvexBackend) :
  Within quiet (fun r => fst r = this) (runFunction functionName args this).
Proof. unfold runFunction. unfold_monad. within_tree; reflexivity. Qed.

Lemma stop_within (cleanup : bool) (this : ConvexBackend) :
  Within quiet
         (fun r => fst r = this
                   \/ (process this <> None /\ fst r = set_process None this))
         (stop cleanup this).
Proof.
  unfold stop. unfold_monad. simpl.
  destruct (process this) as [child |] eqn:Hproc; simpl.
  - destruct (pid child); within_tree;
      solve [left; reflexivity | right; split; [discriminate | reflexivity]].
  - constructor. now left.
Qed.

Lemma spawn_within (dir : string) (this : ConvexBackend) :
  Within no_generator (fun r => same_configuration this (fst r)) (spawn path_join dir this).
Proof.
  unfold spawn. unfold_monad. within_tree;
    solve [ exists (process this); now rewrite set_process_same
          | eexists; reflexivity ].
Qed.

Lemma quiet_no_generator (e : Event) : quiet e = true -> no_generator e = true.
Proof. unfold quiet, no_generator. intros H. now apply andb_true_iff in H. Qed.

Lemma quiet_no_spawn (e : Event) : quiet e = true -> no_spawn e = true.
Proof. unfold quiet, no_spawn. intros H. now apply andb_true_iff in H. Qed.

Lemma startBackend_within (dir : string) (this : ConvexBackend) :
  Within no_generator (fun r => same_configuration this (fst r))
         (startBackend path_join pollIntervalMs dir this).
Proof.
  unfold startBackend, bind.
  eapply Within_pbind; [apply spawn_within |].
  intros [this' c] [q Hq]. simpl in Hq. subst this'. simpl.
  destruct c as [[] | e].
  - eapply Within_allowed; [exact quiet_no_generator |].
    eapply Within_weaken; [| apply waitForReady_within].
    intros r Hr. exists q. exact Hr.
  - constructor. now exists q.
Qed.

(** No method calls the credential generator, and no method assigns a field
    other than the process handle. *)
Lemma invoke_same_configuration (op : Op) (this : ConvexBackend) :
  Within no_generator (same_configuration this) (invoke path_join pollIntervalMs op this).
Proof.
  assert (Hquiet : forall (A : Type) (p : Prog (ConvexBackend * Completion A)),
             Within quiet (fun r => fst r = this) p ->
             Within no_generator (same_configuration this) (pbind p (fun r => Ret (fst r)))).
  { intros A p Hp. eapply Within_allowed; [exact quiet_no_generator |].
    eapply Within_pbind; [exact Hp |].
    intros r Hr. constructor. exists (process this).
    now rewrite set_process_same. }
  destruct op; unfold invoke.
  - apply Hquiet, getAdminKey_within.
  - eapply Within_pbind; [apply spawn_within |]. intros r Hr. now constructor.
  - apply Hquiet, waitForReady_within.
  - eapply Within_pbind; [apply startBackend_within |]. intros r Hr. now constructor.
  - apply Hquiet, deploy_within.
  - apply Hquiet, setEnv_within.
  - apply Hquiet, runFunction_within.
  - eapply Within_allowed; [exact quiet_no_generator |].
    eapply Within_pbind; [apply stop_within |].
    intros r [Hr | [_ Hr]]; constructor.
    + exists (process this). now rewrite set_process_same.
    + now exists None.
Qed.

(** A method other than [spawn] and [startBackend] creates no process, and
    leaves an absent handle absent. *)
Lemma invoke_no_spawn (op : Op) (this : ConvexBackend) :
  spawns op = false ->
  process this = None ->
  Within no_spawn (fun this' => process this' = None) (invoke path_join pollIntervalMs op this).
Proof.
  intros Hop Hproc.
  assert (Hquiet : forall (A : Type) (p : Prog (ConvexBackend * Completion A)),
             Within quiet (fun r => fst r = this) p ->
             Within no_spawn (fun this' => process this' = None)
                    (pbind p (fun r => Ret (fst r)))).
  { intros A p Hp. eapply Within_allowed; [exact quiet_no_spawn |].
    eapply Within_pbind; [exact Hp |].
    intros r Hr. constructor. now rewrite Hr. }
  destruct op; unfold invoke; try discriminate Hop.
  - apply Hquiet, getAdminKey_within.
  - apply Hquiet, waitForReady_within.
  - apply Hquiet, deploy_within.
  - apply Hquiet, setEnv_within.
  - apply Hquiet, runFunction_within.
  - eapply Within_allowed; [exact quiet_no_spawn |].
    eapply Within_pbind; [apply stop_within |].
    intros r [Hr | [_ Hr]]; constructor; now rewrite Hr.
Qed.

Lemma session_same_configuration (ops : list Op) :
  forall this : ConvexBackend,
    Within no_generator (same_configuration this) (session path_join pollIntervalMs ops this).
Proof.
  induction ops as [| op ops IH]; intros this; simpl.
  - constructor. exists (process this). now rewrite set_process_same.
  - eapply Within_pbind; [apply invoke_same_configuration |].
    intros this' [q ->].
    eapply Within_weaken; [| apply IH].
    intros this'' [q' ->]. now exists q'.
Qed.

Lemma session_no_spawn (ops : list Op) :
  forallb (fun op => negb (spawns op)) ops = true ->
  forall this : ConvexBackend,
    process this = None ->
    Within no_spawn (fun this' => process this' = None) (session path_join pollIntervalMs ops this).
Proof.
  induction ops as [| op ops IH]; intros Hops this Hproc; simpl.
  - now constructor.
  - simpl in Hops. apply andb_true_iff in Hops. destruct Hops as [Hop Hops].
    apply negb_true_iff in Hop.
    eapply Within_pbind; [apply invoke_no_spawn; assumption |].
    intros this' Hthis'. now apply IH.
Qed.

End Methods.

(* ================================================================== *)
(** ** Construction, credentials and the process handle *)
(* ================================================================== *)

Lemma forallb_negb_existsb (A : Type) (f : A -> bool) (l : list A) :
  forallb (fun a => negb (f a)) l = true -> existsb f l = false.
Proof.
  induction l as [| a l IH]; simpl; [reflexivity |].
  intros H. apply andb_true_iff in H. destruct H as [Ha Hl].
  apply negb_true_iff in Ha. now rewrite Ha, IH.
Qed.

Lemma forallb_weaken (A : Type) (f g : A -> bool) (l : list A) :
  (forall a : A, f a = true -> g a = true) ->
  forallb f l = true -> forallb g l = true.
Proof.
  intros Hfg. induction l as [| a l IH]; simpl; [reflexivity |].
  intros H. apply andb_true_iff in H. destruct H as [Ha Hl].
  now rewrite (Hfg a Ha), IH.
Qed.

(** The constructor creates no process and leaves the handle unassigned,
    on both paths. *)
Lemma constructor_no_process
      (path_join : list string -> string) (o : Oracle) (n : nat)
      (options : ConvexBackendOptions) (logger : Logger) :
  let r := run o n (constructor path_join options logger) in
  forallb (fun e => negb (is_spawn e) && negb (is_spawnSync e)) (fst r) = true
  /\ process (snd r) = None.
Proof.
  destruct (both_truthy (Options.instanceSecret options) (Options.adminKey options))
    as [[secret key] |] eqn:Hboth.
  - destruct (constructor_run_supplied path_join o n options logger Hboth)
      as (Ht & _ & _ & Hp).
    split; [| exact Hp].
    revert Ht. apply forallb_weaken. intros e He.
    apply andb_true_iff in He. destruct He as [He1 He3].
    apply andb_true_iff in He1. destruct He1 as [_ He2].
    now rewrite He2, He3.
  - destruct (constructor_run_generated path_join o n options logger Hboth)
      as (keys & _ & Ht & _ & _ & Hp).
    now split.
Qed.

(** C2, as amended.  For every configuration that gives an instance secret
    and an admin key that are both non-empty strings, the constructor does
    not call the credential generator and stores exactly the two values
    given; and whatever methods are invoked afterwards, none calls the
    generator and the stored secret and admin key stay the ones given. *)
Theorem constructor_keeps_supplied_credentials
        (path_join : list string -> string) (pollIntervalMs : Z)
        (o : Oracle) (options : ConvexBackendOptions) (logger : Logger)
        (secret key : string) (ops : list Op) :
  Options.instanceSecret options = Some secret ->
  Options.adminKey options = Some key ->
  secret <> ""%string ->
  key <> ""%string ->
  let built := run o 0 (constructor path_join options logger) in
  let later := run o (List.length (fst built))
                   (session path_join pollIntervalMs ops (snd built)) in
  existsb is_generateKeyPair (fst built ++ fst later) = false
  /\ instanceSecret (snd built) = secret /\ adminKey (snd built) = key
  /\ instanceSecret (snd later) = secret /\ adminKey (snd later) = key.
Proof.
  intros Hs Hk Hs' Hk' built later.
  assert (Hboth : both_truthy (Options.instanceSecret options) (Options.adminKey options)
                  = Some (secret, key)).
  { rewrite Hs, Hk. now apply both_truthy_nonempty. }
  destruct (constructor_run_supplied path_join o 0 options logger Hboth)
    as (Ht & Hsec & Hkey & _).
  fold built in Ht, Hsec, Hkey.
  destruct (Within_run (session_same_configuration path_join pollIntervalMs ops (snd built))
                       o (List.length (fst built))) as [Ht' [q Hq]].
  fold later in Ht', Hq.
  split; [| split; [exact Hsec | split; [exact Hkey |]]].
  - rewrite existsb_app. apply orb_false_iff. split.
    + apply forallb_negb_existsb. revert Ht. apply forallb_weaken.
      intros e He. apply andb_true_iff in He. destruct He as [He _].
      apply andb_true_iff in He. now destruct He.
    + now apply forallb_negb_existsb.
  - rewrite Hq. simpl. now split.
Qed.

(** C10.  For every configuration that gives exactly one of the instance
    secret and the admin key, the constructor calls the credential generator
    once, with the instance name (the default name when none is given), and
    stores the generated secret and the generated admin key: the value given
    is not used. *)
Theorem constructor_regenerates_when_one_is_missing
        (path_join : list string -> string)
        (o : Oracle) (n : nat) (options : ConvexBackendOptions) (logger : Logger) :
  (Options.instanceSecret options = None /\ Options.adminKey options <> None)
  \/ (Options.instanceSecret options <> None /\ Options.adminKey options = None) ->
  let built := run o n (constructor path_join options logger) in
  let name := nullish (Options.instanceName options) "convex-local"%string in
  exists keys : KeyPair,
    filter is_generateKeyPair (fst built) = [Ev (generateKeyPair name) keys]
    /\ instanceSecret (snd built) = keys_instanceSecret keys
    /\ adminKey (snd built) = keys_adminKey keys.
Proof.
  intros Hone built name.
  assert (Hboth : both_truthy (Options.instanceSecret options) (Options.adminKey options) = None).
  { apply both_truthy_one_missing. destruct Hone as [[H _] | [_ H]]; auto. }
  destruct (constructor_run_generated path_join o n options logger Hboth)
    as (keys & Hgen & _ & Hsec & Hkey & _).
  exists keys. auto.
Qed.

(** C9.  For every configuration, the constructor creates no process,
    neither the backend's nor any other, and leaves the process handle
    absent; and as long as the methods invoked on the instance are not
    [spawn] (nor [startBackend], which calls it), no backend process is
    created and the handle stays absent. *)
Theorem process_absent_until_spawn
        (path_join : list string -> string) (pollIntervalMs : Z)
        (o : Oracle) (options : ConvexBackendOptions) (logger : Logger) (ops : list Op) :
  forallb (fun op => negb (spawns op)) ops = true ->
  let built := run o 0 (constructor path_join options logger) in
  let later := run o (List.length (fst built))
                   (session path_join pollIntervalMs ops (snd built)) in
  process (snd built) = None
  /\ existsb is_spawn (fst built) = false
  /\ existsb is_spawnSync (fst built) = false
  /\ process (snd later) = None
  /\ existsb is_spawn (fst later) = false.
Proof.
  intros Hops built later.
  destruct (constructor_no_process path_join o 0 options logger) as [Ht Hp].
  fold built in Ht, Hp.
  destruct (Within_run (session_no_spawn path_join pollIntervalMs ops Hops (snd built) Hp)
                       o (List.length (fst built))) as [Ht' Hp'].
  fold later in Ht', Hp'.
  split; [exact Hp |]. split; [| split; [| split; [exact Hp' |]]].
  - apply forallb_negb_existsb. revert Ht. apply forallb_weaken.
    intros e He. apply andb_true_iff in He. now destruct He.
  - apply forallb_negb_existsb. revert Ht. apply forallb_weaken.
    intros e He. apply andb_true_iff in He. now destruct He.
  - now apply forallb_negb_existsb.
Qed.

(* ================================================================== *)
(** ** The readiness prober *)
(* ================================================================== *)

Unset Implicit Arguments.

Section Prober.

Variable pollIntervalMs : Z.
Variable o : Oracle.
Variable S : Type.
Variable url : string.
Variable timeoutMs : Z.

(** One round: a probe, and unless it is answered 2xx, a sleep and the
    remaining rounds. *)
Lemma pollUntilOk_round (fuel n : nat) (elapsed : Z) (s : S) :
  elapsed < timeoutMs ->
  run o n (pollUntilOk pollIntervalMs (Datatypes.S fuel) url timeoutMs elapsed s) =
  if probe_ready (o _ n (fetch url GET))
  then ([Ev (fetch url GET) (o _ n (fetch url GET))], (s, Normal tt))
  else (Ev (fetch url GET) (o _ n (fetch url GET))
          :: Ev (sleep pollIntervalMs) tt
          :: fst (run o (2 + n) (pollUntilOk pollIntervalMs fuel url timeoutMs (elapsed + pollIntervalMs) s)),
        snd (run o (2 + n) (pollUntilOk pollIntervalMs fuel url timeoutMs (elapsed + pollIntervalMs) s))).
Proof.
  intros Hlt. simpl.
  destruct (timeoutMs <=? elapsed) eqn:Hle; [apply Z.leb_le in Hle; lia |].
  unfold_monad. simpl.
  destruct (o _ n (fetch url GET)) as [e | response]; simpl.
  - now destruct (o unit (Datatypes.S n) (sleep pollIntervalMs)).
  - destruct (ok response); simpl; [reflexivity |].
    now destruct (o unit (Datatypes.S n) (sleep pollIntervalMs)).
Qed.

Lemma pollUntilOk_deadline (fuel n : nat) (elapsed : Z) (s : S) :
  timeoutMs <= elapsed ->
  run o n (pollUntilOk pollIntervalMs fuel url timeoutMs elapsed s) = ([], (s, Throws (readinessTimeout url timeoutMs))).
Proof.
  intros Hle. destruct fuel as [| fuel]; simpl; [reflexivity |].
  apply Z.leb_le in Hle. now rewrite Hle.
Qed.

(** The first 2xx answer that comes before the deadline ends the wait
    normally; the probes before it, refused or answered otherwise, are
    followed by a sleep and a new probe. *)
Lemma pollUntilOk_ready (k : nat) :
  forall (fuel n : nat) (elapsed : Z) (s : S),
    0 < pollIntervalMs ->
    (k < fuel)%nat ->
    elapsed + Z.of_nat k * pollIntervalMs < timeoutMs ->
    (forall j : nat, (j < k)%nat ->
                     probe_ready (o _ (n + 2 * j)%nat (fetch url GET)) = false) ->
    probe_ready (o _ (n + 2 * k)%nat (fetch url GET)) = true ->
    snd (run o n (pollUntilOk pollIntervalMs fuel url timeoutMs elapsed s)) = (s, Normal tt)
    /\ List.length (filter is_fetch (fst (run o n (pollUntilOk pollIntervalMs fuel url timeoutMs elapsed s)))) = Datatypes.S k
    /\ List.length (filter is_sleep (fst (run o n (pollUntilOk pollIntervalMs fuel url timeoutMs elapsed s)))) = k.
Proof.
  induction k as [| k IH]; intros fuel n elapsed s Hpos Hfuel Htime Hbefore Hready.
  - destruct fuel as [| fuel]; [lia |].
    rewrite pollUntilOk_round by lia.
    replace (n + 2 * 0)%nat with n in Hready by lia.
    rewrite Hready. simpl. auto.
  - destruct fuel as [| fuel]; [lia |].
    rewrite pollUntilOk_round by nia.
    pose proof (Hbefore 0%nat ltac:(lia)) as H0.
    replace (n + 2 * 0)%nat with n in H0 by lia. rewrite H0.
    destruct (IH fuel (2 + n)%nat (elapsed + pollIntervalMs) s Hpos) as (Hr & Hf & Hs).
    + lia.
    + nia.
    + intros j Hj. replace (2 + n + 2 * j)%nat with (n + 2 * Datatypes.S j)%nat by lia.
      apply Hbefore. lia.
    + replace (2 + n + 2 * k)%nat with (n + 2 * Datatypes.S k)%nat by lia.
      exact Hready.
    + cbn [fst snd filter is_fetch is_sleep List.length].
      rewrite Hf, Hs. auto.
Qed.

(** No 2xx answer before the deadline: the wait ends with the timeout
    error. *)
Lemma pollUntilOk_never_ready (fuel : nat) :
  forall (n : nat) (elapsed : Z) (s : S),
    (forall j : nat, elapsed + Z.of_nat j * pollIntervalMs < timeoutMs ->
                     probe_ready (o _ (n + 2 * j)%nat (fetch url GET)) = false) ->
    snd (run o n (pollUntilOk pollIntervalMs fuel url timeoutMs elapsed s)) = (s, Throws (readinessTimeout url timeoutMs)).
Proof.
  induction fuel as [| fuel IH]; intros n elapsed s Hnever.
  - reflexivity.
  - destruct (Z.lt_ge_cases elapsed timeoutMs) as [Hlt | Hge].
    + rewrite pollUntilOk_round by exact Hlt.
      pose proof (Hnever 0%nat ltac:(lia)) as H0.
      replace (n + 2 * 0)%nat with n in H0 by lia. rewrite H0. cbn [snd].
      apply IH. intros j Hj.
      replace (2 + n + 2 * j)%nat with (n + 2 * Datatypes.S j)%nat by lia.
      apply Hnever. lia.
    + now rewrite pollUntilOk_deadline.
Qed.

(** Whatever the answers, the wait ends, normally or with the timeout error:
    no error of a probe gets out. *)
Lemma pollUntilOk_outcome (fuel : nat) :
  forall (n : nat) (elapsed : Z) (s : S),
    snd (run o n (pollUntilOk pollIntervalMs fuel url timeoutMs elapsed s)) = (s, Normal tt)
    \/ snd (run o n (pollUntilOk pollIntervalMs fuel url timeoutMs elapsed s)) = (s, Throws (readinessTimeout url timeoutMs)).
Proof.
  induction fuel as [| fuel IH]; intros n elapsed s.
  - now right.
  - destruct (Z.lt_ge_cases elapsed timeoutMs) as [Hlt | Hge].
    + rewrite pollUntilOk_round by exact Hlt.
      destruct (probe_ready (o _ n (fetch url GET))); cbn [snd]; [now left | apply IH].
    + rewrite pollUntilOk_deadline by exact Hge. now right.
Qed.

(** Every sleep starts before the deadline. *)
Lemma pollUntilOk_sleeps (fuel : nat) :
  forall (n : nat) (elapsed : Z) (s : S),
    List.length (filter is_sleep (fst (run o n (pollUntilOk pollIntervalMs fuel url timeoutMs elapsed s)))) = 0%nat
    \/ elapsed
         + (Z.of_nat (List.length (filter is_sleep (fst (run o n (pollUntilOk pollIntervalMs fuel url timeoutMs elapsed s))))) - 1)
           * pollIntervalMs < timeoutMs.
Proof.
  induction fuel as [| fuel IH]; intros n elapsed s.
  - now left.
  - destruct (Z.lt_ge_cases elapsed timeoutMs) as [Hlt | Hge].
    + rewrite pollUntilOk_round by exact Hlt.
      destruct (probe_ready (o _ n (fetch url GET)));
        cbn [fst filter is_fetch is_sleep List.length]; [now left |].
      right.
      destruct (IH (2 + n)%nat (elapsed + pollIntervalMs) s) as [H0 | Hlast].
      * rewrite H0. lia.
      * lia.
    + rewrite pollUntilOk_deadline by exact Hge. now left.
Qed.

End Prober.

Set Implicit Arguments.

Section Readiness.

Variable pollIntervalMs : Z.

Lemma healthCheck_with_port (this : ConvexBackend) :
  truthy_number (port this) = true ->
  healthCheck pollIntervalMs this =
  pollUntilOk pollIntervalMs (Z.to_nat (healthCheckTimeout this))
              (version_url this) (healthCheckTimeout this) 0 this.
Proof.
  intros Hport. unfold healthCheck, bind, get. simpl. now rewrite Hport.
Qed.

Lemma waitForReady_run (o : Oracle) (n : nat) (this : ConvexBackend) :
  truthy_number (port this) = true ->
  (snd (run o n (healthCheck pollIntervalMs this)) = (this, Normal tt) ->
   run o n (waitForReady pollIntervalMs this) =
   (fst (run o n (healthCheck pollIntervalMs this)) ++ ready_log this, (this, Normal tt)))
  /\ (forall e : Error,
         snd (run o n (healthCheck pollIntervalMs this)) = (this, Throws e) ->
         run o n (waitForReady pollIntervalMs this) =
         (fst (run o n (healthCheck pollIntervalMs this)), (this, Throws e))).
Proof.
  intros Hport. split.
  - intros Hok. unfold waitForReady.
    rewrite (run_bind_normal o _ _ n this Hok).
    unfold_monad. cbn [pbind snd fst run].
    repeat match goal with
           | |- context [o unit ?m ?c] => destruct (o unit m c)
           end.
    reflexivity.
  - intros e Hthrows. unfold waitForReady.
    now rewrite (run_bind_throws o _ _ n this Hthrows).
Qed.

(** C5.  With a port and a positive polling interval, [waitForReady]
    probes the liveness endpoint until it is answered 2xx or the health-check
    timeout has elapsed.
    (a) If the first 2xx answer comes at a probe due before the timeout, the
    probes before it (refused connections included) are each followed by a
    sleep and a new probe, and [waitForReady] completes normally.
    (b) If no probe due before the timeout is answered 2xx, [waitForReady]
    throws the timeout error.
    (c) Whatever the answers, [waitForReady] completes normally or throws the
    timeout error: no error of a probe is surfaced; the timeout error has no
    system error code, which a refused connection has; and every sleep starts
    before the timeout has elapsed, so the wait is bounded. *)
Theorem waitForReady_polls_until_ready_or_timeout
        (o : Oracle) (n : nat) (this : ConvexBackend) :
  0 < pollIntervalMs ->
  truthy_number (port this) = true ->
  let probe := fun k : nat => o _ (n + 2 * k)%nat (fetch (version_url this) GET) in
  let timeout := readinessTimeout (version_url this) (healthCheckTimeout this) in
  let r := run o n (waitForReady pollIntervalMs this) in
  let sleeps := List.length (filter is_sleep (fst r)) in
  (forall k : nat,
      (forall j : nat, (j < k)%nat -> probe_ready (probe j) = false) ->
      probe_ready (probe k) = true ->
      Z.of_nat k * pollIntervalMs < healthCheckTimeout this ->
      snd r = (this, Normal tt)
      /\ List.length (filter is_fetch (fst r)) = S k
      /\ sleeps = k)
  /\ ((forall k : nat,
          Z.of_nat k * pollIntervalMs < healthCheckTimeout this ->
          probe_ready (probe k) = false) ->
      snd r = (this, Throws timeout))
  /\ (snd r = (this, Normal tt) \/ snd r = (this, Throws timeout))
  /\ code timeout = None
  /\ (sleeps = 0%nat \/ (Z.of_nat sleeps - 1) * pollIntervalMs < healthCheckTimeout this).
Proof.
  intros Hpos Hport probe timeout r sleeps.
  destruct (waitForReady_run o n this Hport) as [Hnormal Hthrows].
  pose proof (healthCheck_with_port this Hport) as Hhc.
  assert (Hsleeps_log : forall l : list Event,
             filter is_sleep (l ++ ready_log this) = filter is_sleep l).
  { intros l. rewrite filter_app. simpl. now rewrite app_nil_r. }
  assert (Hfetch_log : forall l : list Event,
             filter is_fetch (l ++ ready_log this) = filter is_fetch l).
  { intros l. rewrite filter_app. simpl. now rewrite app_nil_r. }
  split; [| split; [| split; [| split; [reflexivity |]]]].
  - intros k Hbefore Hready Hdue.
    destruct (pollUntilOk_ready pollIntervalMs o ConvexBackend (version_url this)
                (healthCheckTimeout this) k (Z.to_nat (healthCheckTimeout this))
                n 0 this Hpos) as (Hr & Hf & Hs); try assumption; try nia.
    rewrite <- Hhc in Hr, Hf, Hs.
    subst sleeps r. rewrite (Hnormal Hr). cbn [fst snd].
    rewrite Hfetch_log, Hsleeps_log. auto.
  - intros Hnever.
    pose proof (pollUntilOk_never_ready pollIntervalMs o ConvexBackend (version_url this)
                  (healthCheckTimeout this) (Z.to_nat (healthCheckTimeout this))
                  n 0 this Hnever) as Hr.
    rewrite <- Hhc in Hr. subst r. now rewrite (Hthrows _ Hr).
  - destruct (pollUntilOk_outcome pollIntervalMs o ConvexBackend (version_url this)
                (healthCheckTimeout this) (Z.to_nat (healthCheckTimeout this))
                n 0 this) as [Hr | Hr]; rewrite <- Hhc in Hr; subst r.
    + left. now rewrite (Hnormal Hr).
    + right. now rewrite (Hthrows _ Hr).
  - pose proof (pollUntilOk_sleeps pollIntervalMs o ConvexBackend (version_url this)
                  (healthCheckTimeout this) (Z.to_nat (healthCheckTimeout this))
                  n 0 this) as Hbound.
    rewrite <- Hhc in Hbound.
    destruct (pollUntilOk_outcome pollIntervalMs o ConvexBackend (version_url this)
                (healthCheckTimeout this) (Z.to_nat (healthCheckTimeout this))
                n 0 this) as [Hr | Hr]; rewrite <- Hhc in Hr; subst sleeps r.
    + rewrite (Hnormal Hr). cbn [fst]. rewrite Hsleeps_log.
      destruct Hbound as [H0 | Hlast]; [now left | right; lia].
    + rewrite (Hthrows _ Hr). cbn [fst].
      destruct Hbound as [H0 | Hlast]; [now left | right; lia].
Qed.

End Readiness.

(* ================================================================== *)
(** ** deploy, setEnv and spawn *)
(* ================================================================== *)

Lemma deploy_run_refused (o : Oracle) (n : nat) (this : ConvexBackend) :
  truthy_number (port this) = true ->
  deployTimeout this < 0 ->
  run o n (deploy this)
  = ([], (this, Throws (ERR_OUT_OF_RANGE_timeout (deployTimeout this)))).
Proof.
  intros Hport Hneg. unfold deploy, spawnSync, bind, get, call, throw, ret.
  cbn [pbind run fst snd]. rewrite Hport. cbn [negb pbind run fst snd].
  apply Z.ltb_lt in Hneg. now rewrite Hneg.
Qed.

Lemma deploy_run (o : Oracle) (n : nat) (this : ConvexBackend) :
  truthy_number (port this) = true ->
  0 <= deployTimeout this ->
  run o n (deploy this) =
  ([Ev (deploy_command this) (o _ n (deploy_command this))],
   (this,
    match error (o _ n (deploy_command this)) with
    | Some e => Throws (new_Error ("Failed to spawn convex deploy: " ++ message e))
    | None =>
        match status (o _ n (deploy_command this)) with
        | Some 0 => Normal tt
        | _ =>
            Throws (new_Error
                      ("Failed to deploy (exit code "
                         ++ template_nullable (status (o _ n (deploy_command this)))
                         ++ "):" ++ String (ascii_of_nat 10) ""
                         ++ (stdout (o _ n (deploy_command this))
                               ++ stderr (o _ n (deploy_command this)))))
        end
    end)).
Proof.
  intros Hport Htimeout. unfold deploy, spawnSync, bind, get, call, throw, ret.
  cbn [pbind run fst snd]. rewrite Hport. cbn [negb pbind run fst snd].
  apply Z.ltb_ge in Htimeout. rewrite Htimeout. cbn [pbind run fst snd].
  fold (deploy_command this).
  destruct (o _ n (deploy_command this)) as [err st out errout].
  cbn [error status stdout stderr].
  destruct err as [e |]; [reflexivity |].
  destruct st as [[| p | p] |]; reflexivity.
Qed.


Lemma setEnv_run (o : Oracle) (n : nat) (name value : string) (this : ConvexBackend) :
  truthy_number (port this) = true ->
  run o n (setEnv name value this) =
  ([Ev (setEnv_request name value this) (o _ n (setEnv_request name value this))],
   (this,
    match o _ n (setEnv_request name value this) with
    | inl e => Throws e
    | inr response =>
        if ok response
        then Normal tt
        else Throws (new_Error ("Failed to set " ++ name ++ " env via API ("
                                  ++ String_of_number (resp_status response) ++ "): "
                                  ++ resp_text response))
    end)).
Proof.
  intros Hport. unfold setEnv, bind, get, callE, throw, ret.
  cbn [pbind run fst snd]. rewrite Hport. cbn [negb pbind run fst snd].
  fold (setEnv_request name value this).
  destruct (o _ n (setEnv_request name value this)) as [e | response];
    [reflexivity |].
  cbn [pbind run fst snd].
  now destruct (ok response).
Qed.

(** C7.  For every [setEnv(name, value)] on an instance with a port whose
    request is answered: a status outside 200..299 makes [setEnv] throw an
    error whose message contains the status code and the text of the response
    body; a status within 200..299 makes it complete normally.  One request
    is sent either way. *)
Theorem setEnv_reports_status_and_body
        (o : Oracle) (n : nat) (name value : string) (this : ConvexBackend)
        (response : Response) :
  truthy_number (port this) = true ->
  o _ n (setEnv_request name value this) = inr response ->
  let r := run o n (setEnv name value this) in
  fst r = [Ev (setEnv_request name value this) (inr response)]
  /\ fst (snd r) = this
  /\ (200 <= resp_status response <= 299 -> snd (snd r) = Normal tt)
  /\ (resp_status response < 200 \/ 299 < resp_status response ->
      exists msg : string,
        snd (snd r) = Throws (new_Error msg)
        /\ embeds msg (String_of_number (resp_status response))
        /\ embeds msg (resp_text response)).
Proof.
  intros Hport Hans r. subst r.
  rewrite (setEnv_run o n name value this Hport), Hans. cbn [fst snd].
  split; [reflexivity |]. split; [reflexivity |]. unfold ok. split.
  - intros [Hlo Hhi].
    apply Z.leb_le in Hlo. apply Z.leb_le in Hhi. now rewrite Hlo, Hhi.
  - intros Hout.
    assert (Hnot : (200 <=? resp_status response) && (resp_status response <=? 299) = false).
    { apply andb_false_iff. destruct Hout as [H | H];
        [left; apply Z.leb_gt | right; apply Z.leb_gt]; lia. }
    rewrite Hnot. eexists. split; [reflexivity |]. split.
    + exists ("Failed to set " ++ name ++ " env via API (")%string,
             ("): " ++ resp_text response)%string.
      now rewrite !string_app_assoc.
    + exists ("Failed to set " ++ name ++ " env via API ("
                ++ String_of_number (resp_status response) ++ "): ")%string, ""%string.
      now rewrite !string_app_assoc, string_app_nil_r.
Qed.

Lemma spawn_run (path_join : list string -> string) (o : Oracle) (n : nat)
      (dir binary : string) (this : ConvexBackend) :
  o _ n (spawn_mkdir path_join dir) = inr tt ->
  o _ (1 + n)%nat (spawn_download this) = inr binary ->
  run o n (spawn path_join dir this) =
  let child := o _ (2 + n)%nat (spawn_create path_join dir binary this) in
  let upto_creation :=
    [ Ev (spawn_mkdir path_join dir) (inr tt);
      Ev (spawn_download this) (inr binary);
      Ev (spawn_create path_join dir binary this) child ] in
  if truthy_number (pid child)
  then (upto_creation ++ [Ev (spawn_log this) tt],
        (set_process (Some child) this, Normal tt))
  else (upto_creation,
        (set_process (Some child) this,
         Throws (new_Error "Convex process failed to start - no PID assigned"))).
Proof.
  intros Hmkdir Hdownload. unfold spawn, bind, get, put, call, callE, throw, ret.
  cbn [pbind run fst snd].
  fold (spawn_mkdir path_join dir). rewrite Hmkdir. cbn [pbind run fst snd].
  fold (spawn_download this). change (S n) with (1 + n)%nat. rewrite Hdownload.
  cbn [pbind run fst snd].
  fold (spawn_create path_join dir binary this).
  change (S (1 + n)) with (2 + n)%nat.
  destruct (truthy_number (pid (o _ (2 + n)%nat (spawn_create path_join dir binary this))));
    cbn [negb pbind run fst snd app]; [| reflexivity].
  fold (spawn_log this).
  now destruct (o unit (S (2 + n)) (spawn_log this)).
Qed.

(** C8.  For every [spawn(backendDir)] whose storage directory could be
    made and whose binary could be obtained: the process is created by one
    call, and the handle is set to what that call returned.  When the process
    got a pid, [spawn] logs once and completes normally: it sends no probe
    and does not sleep.  When it got none, [spawn] throws the "no PID
    assigned" error right after the one creation: there is no second
    attempt. *)
Theorem spawn_returns_after_creation_without_retry
        (path_join : list string -> string) (o : Oracle) (n : nat)
        (dir binary : string) (this : ConvexBackend) :
  o _ n (spawn_mkdir path_join dir) = inr tt ->
  o _ (1 + n)%nat (spawn_download this) = inr binary ->
  let r := run o n (spawn path_join dir this) in
  let child := o _ (2 + n)%nat (spawn_create path_join dir binary this) in
  filter is_spawn (fst r) = [Ev (spawn_create path_join dir binary this) child]
  /\ existsb (fun e => is_fetch e || is_sleep e) (fst r) = false
  /\ fst (snd r) = set_process (Some child) this
  /\ (truthy_number (pid child) = true ->
      snd (snd r) = Normal tt
      /\ last (fst r) (Ev (spawn_log this) tt) = Ev (spawn_log this) tt
      /\ List.length (fst r) = 4%nat)
  /\ (truthy_number (pid child) = false ->
      snd (snd r) = Throws (new_Error "Convex process failed to start - no PID assigned")
      /\ last (fst r) (Ev (spawn_log this) tt)
         = Ev (spawn_create path_join dir binary this) child).
Proof.
  intros Hmkdir Hdownload r child. subst r child.
  rewrite (spawn_run path_join o n dir this Hmkdir Hdownload). cbv zeta.
  destruct (truthy_number (pid (o _ (2 + n)%nat (spawn_create path_join dir binary this))));
    cbn [fst snd app filter is_spawn is_fetch is_sleep existsb orb last List.length
         spawn_mkdir spawn_download spawn_create spawn_log];
    repeat split; intros; try reflexivity; discriminate.
Qed.

(* ================================================================== *)
(** ** The "not started" guard *)
(* ================================================================== *)

(** The guard of [deploy], [setEnv] and [runFunction] reads the port, and
    the constructor always assigns one: with the default port the guard lets
    an instance without a process through. *)
Lemma guard_reads_port (o : Oracle) (n : nat) (this : ConvexBackend) :
  truthy_number (port this) = false ->
  run o n (deploy this) = ([], (this, Throws (new_Error "Backend not started")))
  /\ (forall name value : string,
         run o n (setEnv name value this)
         = ([], (this, Throws (new_Error "Backend not started"))))
  /\ (forall functionName args : string,
         run o n (runFunction functionName args this)
         = ([], (this, Throws (new_Error "Backend not started")))).
Proof.
  intros Hport.
  unfold deploy, setEnv, runFunction, bind, get, throw. cbn [pbind run fst snd].
  rewrite Hport. repeat split.
Qed.

(** C1, at the failing input.  [new ConvexBackend({}, logger)] has no
    process handle, and neither has the instance after [spawn] and [stop];
    yet [deploy()], [setEnv()] and [runFunction()] on them do not throw
    "Backend not started": each makes its external call (the deploy command,
    the HTTP request) and, the world answering, completes normally. *)
Theorem guard_passes_without_process_handle :
  process fresh = None
  /\ process stopped = None
  /\ run calm 0 (deploy fresh)
     = ([Ev (deploy_command fresh)
            {| error := None; status := Some 0; stdout := "deployed"; stderr := "" |}],
        (fresh, Normal tt))
  /\ run calm 0 (deploy stopped)
     = ([Ev (deploy_command stopped)
            {| error := None; status := Some 0; stdout := "deployed"; stderr := "" |}],
        (stopped, Normal tt))
  /\ run calm 0 (setEnv "SITE_URL" "http://localhost:5173" fresh)
     = ([Ev (setEnv_request "SITE_URL" "http://localhost:5173" fresh)
            (inr {| resp_status := 200; resp_text := "ok" |})],
        (fresh, Normal tt))
  /\ throws (snd (snd (run calm 0 (runFunction "messages:list" "{}" fresh)))) = false
  /\ existsb is_fetch (fst (run calm 0 (runFunction "messages:list" "{}" fresh))) = true.
Proof.
  repeat split.
Qed.

(* ================================================================== *)
(** ** The statements at concrete instances *)
(* ================================================================== *)

(** C2, as stated, fails when a credential given is the empty string: the
    options give both an instance secret and an admin key, and the
    constructor calls the generator and stores the generated pair, not the
    admin key given. *)
Lemma empty_secret_is_regenerated :
  Options.instanceSecret empty_secret_options = Some ""%string
  /\ Options.adminKey empty_secret_options = Some "caller-admin-key"%string
  /\ existsb is_generateKeyPair
             (fst (run calm 0 (constructor posix_join empty_secret_options 0%nat))) = true
  /\ instanceSecret (snd (run calm 0 (constructor posix_join empty_secret_options 0%nat)))
     = "generated-secret"%string
  /\ adminKey (snd (run calm 0 (constructor posix_join empty_secret_options 0%nat)))
     = "generated-admin-key"%string
  /\ String.eqb
       (adminKey (snd (run calm 0 (constructor posix_join empty_secret_options 0%nat))))
       "caller-admin-key" = false.
Proof.
  repeat split.
Qed.


Lemma constructor_keeps_supplied_credentials_witness :
  Options.instanceSecret both_credentials_options = Some "caller-secret"%string
  /\ Options.adminKey both_credentials_options = Some "caller-admin-key"%string
  /\ (let built := run calm 0 (constructor posix_join both_credentials_options 0%nat) in
      let later := run calm (List.length (fst built))
                       (session posix_join 50
                                [op_spawn "/work/backend"; op_deploy; op_stop true]
                                (snd built)) in
      existsb is_generateKeyPair (fst built ++ fst later) = false
      /\ instanceSecret (snd built) = "caller-secret"%string
      /\ adminKey (snd built) = "caller-admin-key"%string
      /\ instanceSecret (snd later) = "caller-secret"%string
      /\ adminKey (snd later) = "caller-admin-key"%string).
Proof.
  split; [reflexivity |]. split; [reflexivity |].
  apply (@constructor_keeps_supplied_credentials posix_join 50 calm
           both_credentials_options 0%nat "caller-secret" "caller-admin-key"
           [op_spawn "/work/backend"; op_deploy; op_stop true]);
    [reflexivity | reflexivity | discriminate | discriminate].
Defined.

Lemma stop_kills_clears_and_cleans_witness :
  process spawned = Some {| pid := Some 4242 |}
  /\ process (fst (snd (run rough_teardown 0 (stop true spawned)))) = None
  /\ snd (snd (run rough_teardown 0 (stop true spawned))) = Throws ENOENT.
Proof.
  split; [reflexivity |].
  destruct (@stop_kills_clears_and_cleans rough_teardown 0 true spawned
              {| pid := Some 4242 |} 4242 eq_refl eq_refl)
    as (_ & _ & Hcleared & Hcleanup & _).
  split; [exact Hcleared |].
  exact (proj2 (Hcleanup eq_refl)).
Defined.

Lemma stop_idempotent_witness :
  run calm 0 (stop true fresh) = ([], (fresh, Normal tt))
  /\ run rough_teardown 3 (stop true (fst (snd (run rough_teardown 0 (stop true spawned)))))
     = ([], (fst (snd (run rough_teardown 0 (stop true spawned))), Normal tt)).
Proof.
  split.
  - exact (proj1 (stop_idempotent calm 0 true true fresh) eq_refl).
  - exact (proj2 (stop_idempotent rough_teardown 0 true true spawned)).
Defined.

Lemma waitForReady_polls_until_ready_or_timeout_witness :
  0 < 50
  /\ truthy_number (port fresh) = true
  /\ snd (run (slow_start (Some 3%nat)) 0 (waitForReady 50 fresh)) = (fresh, Normal tt)
  /\ snd (run (slow_start None) 0 (waitForReady 50 impatient))
     = (impatient, Throws (readinessTimeout (version_url impatient) 50)).
Proof.
  split; [reflexivity |]. split; [reflexivity |]. split.
  - destruct (@waitForReady_polls_until_ready_or_timeout 50 (slow_start (Some 3%nat)) 0 fresh
                eq_refl eq_refl) as (Hready & _).
    apply (Hready 2%nat).
    + intros [| [| j]] Hj; [reflexivity | reflexivity | lia].
    + reflexivity.
    + reflexivity.
  - destruct (@waitForReady_polls_until_ready_or_timeout 50 (slow_start None) 0 impatient
                eq_refl eq_refl) as (_ & Hnever & _).
    apply Hnever. intros k _. reflexivity.
Defined.


Lemma setEnv_reports_status_and_body_witness :
  truthy_number (port fresh) = true
  /\ @failing _ 0%nat (setEnv_request "SITE_URL" "http://localhost:5173" fresh)
     = inr {| resp_status := 500; resp_text := "internal error" |}
  /\ (exists msg : string,
         snd (snd (run failing 0 (setEnv "SITE_URL" "http://localhost:5173" fresh)))
         = Throws (new_Error msg)
         /\ embeds msg "500" /\ embeds msg "internal error").
Proof.
  split; [reflexivity |]. split; [reflexivity |].
  destruct (@setEnv_reports_status_and_body failing 0 "SITE_URL" "http://localhost:5173" fresh
              {| resp_status := 500; resp_text := "internal error" |} eq_refl eq_refl)
    as (_ & _ & _ & Hbad).
  apply Hbad. right. reflexivity.
Defined.

Lemma spawn_returns_after_creation_without_retry_witness :
  @calm _ 0%nat (spawn_mkdir posix_join (backendDir fresh)) = inr tt
  /\ @calm _ 1%nat (spawn_download fresh) = inr "/cache/convex-local-backend"%string
  /\ snd (snd (run calm 0 (spawn posix_join (backendDir fresh) fresh))) = Normal tt
  /\ snd (snd (run failing 0 (spawn posix_join (backendDir fresh) fresh)))
     = Throws (new_Error "Convex process failed to start - no PID assigned")
  /\ List.length (filter is_spawn (fst (run failing 0 (spawn posix_join (backendDir fresh) fresh))))
     = 1%nat.
Proof.
  split; [reflexivity |]. split; [reflexivity |].
  destruct (@spawn_returns_after_creation_without_retry posix_join calm 0
              (backendDir fresh) "/cache/convex-local-backend" fresh eq_refl eq_refl)
    as (_ & _ & _ & Hpid & _).
  destruct (@spawn_returns_after_creation_without_retry posix_join failing 0
              (backendDir fresh) "/cache/convex-local-backend" fresh eq_refl eq_refl)
    as (Honce & _ & _ & _ & Hnopid).
  split; [exact (proj1 (Hpid eq_refl)) |].
  split; [exact (proj1 (Hnopid eq_refl)) |].
  now rewrite Honce.
Defined.

Lemma process_absent_until_spawn_witness :
  forallb (fun op => negb (spawns op))
          [op_deploy; op_setEnv "SITE_URL" "http://localhost:5173"; op_waitForReady;
           op_stop true; op_getAdminKey] = true
  /\ (let built := run calm 0 (constructor posix_join Options.empty 0%nat) in
      let later := run calm (List.length (fst built))
                       (session posix_join 50
                                [op_deploy; op_setEnv "SITE_URL" "http://localhost:5173";
                                 op_waitForReady; op_stop true; op_getAdminKey]
                                (snd built)) in
      process (snd built) = None
      /\ existsb is_spawn (fst built) = false
      /\ existsb is_spawnSync (fst built) = false
      /\ process (snd later) = None
      /\ existsb is_spawn (fst later) = false).
Proof.
  split; [reflexivity |].
  apply (@process_absent_until_spawn posix_join 50 calm Options.empty 0%nat
           [op_deploy; op_setEnv "SITE_URL" "http://localhost:5173"; op_waitForReady;
            op_stop true; op_getAdminKey]).
  reflexivity.
Defined.

Lemma constructor_regenerates_when_one_is_missing_witness :
  (Options.instanceSecret secret_only_options <> None
   /\ Options.adminKey secret_only_options = None)
  /\ (exists keys : KeyPair,
         filter is_generateKeyPair
                (fst (run calm 0 (constructor posix_join secret_only_options 0%nat)))
         = [Ev (generateKeyPair "convex-local") keys]
         /\ instanceSecret (snd (run calm 0 (constructor posix_join secret_only_options 0%nat)))
            = keys_instanceSecret keys
         /\ adminKey (snd (run calm 0 (constructor posix_join secret_only_options 0%nat)))
            = keys_adminKey keys).
Proof.
  split; [split; [discriminate | reflexivity] |].
  apply (@constructor_regenerates_when_one_is_missing posix_join calm 0
           secret_only_options 0%nat).
  right. split; [discriminate | reflexivity].
Defined.

(* ================================================================== *)
(** ** More on the class: requests, spawn, stop, the port *)
(* ================================================================== *)

Lemma runFunction_run (o : Oracle) (n : nat) (functionName args : string) (this : ConvexBackend) :
  truthy_number (port this) = true ->
  run o n (runFunction functionName args this) =
  match o _ n (runFunction_request functionName args this) with
  | inl e => ([Ev (runFunction_request functionName args this) (inl e)], (this, Throws e))
  | inr response =>
      if ok response
      then ([ Ev (runFunction_request functionName args this) (inr response);
              Ev (response_json_value response)
                 (o _ (1 + n)%nat (response_json_value response)) ],
            (this,
             match o _ (1 + n)%nat (response_json_value response) with
             | inl e => Throws e
             | inr v => Normal v
             end))
      else ([Ev (runFunction_request functionName args this) (inr response)],
            (this,
             Throws (new_Error ("Failed to run " ++ functionName ++ " ("
                                  ++ String_of_number (resp_status response) ++ "): "
                                  ++ resp_text response))))
  end.
Proof.
  intros Hport. unfold runFunction, bind, get, callE, throw, ret.
  cbn [pbind run fst snd]. rewrite Hport. cbn [negb pbind run fst snd].
  fold (runFunction_request functionName args this).
  destruct (o _ n (runFunction_request functionName args this)) as [e | response];
    [reflexivity |].
  cbn [pbind run fst snd].
  destruct (ok response); cbn [negb pbind run fst snd]; [| reflexivity].
  change (S n) with (1 + n)%nat.
  now destruct (o _ (1 + n)%nat (response_json_value response)).
Qed.

(** [runFunction] on an instance with a port, its request answered.  A
    status within 200..299: the body is decoded and its [value] returned, or
    the decoding error thrown.  Any other status: the body is not decoded,
    and the error thrown names the function, the status and the text of the
    body. *)
Theorem runFunction_returns_value_or_reports
        (o : Oracle) (n : nat) (functionName args : string) (this : ConvexBackend)
        (response : Response) :
  truthy_number (port this) = true ->
  o _ n (runFunction_request functionName args this) = inr response ->
  let r := run o n (runFunction functionName args this) in
  let decoded := o _ (1 + n)%nat (response_json_value response) in
  fst (snd r) = this
  /\ (200 <= resp_status response <= 299 ->
      fst r = [ Ev (runFunction_request functionName args this) (inr response);
                Ev (response_json_value response) decoded ]
      /\ snd (snd r) = match decoded with
                       | inl e => Throws e
                       | inr v => Normal v
                       end)
  /\ (resp_status response < 200 \/ 299 < resp_status response ->
      fst r = [Ev (runFunction_request functionName args this) (inr response)]
      /\ exists msg : string,
          snd (snd r) = Throws (new_Error msg)
          /\ embeds msg functionName
          /\ embeds msg (String_of_number (resp_status response))
          /\ embeds msg (resp_text response)).
Proof.
  intros Hport Hans r decoded. subst r decoded.
  rewrite (runFunction_run o n functionName args this Hport), Hans.
  unfold ok. split; [now destruct (_ && _) |]. split.
  - intros [Hlo Hhi].
    apply Z.leb_le in Hlo. apply Z.leb_le in Hhi. rewrite Hlo, Hhi.
    cbn [andb fst snd]. now split.
  - intros Hout.
    assert (Hnot : (200 <=? resp_status response) && (resp_status response <=? 299) = false).
    { apply andb_false_iff. destruct Hout as [H | H];
        [left; apply Z.leb_gt | right; apply Z.leb_gt]; lia. }
    rewrite Hnot. cbn [fst snd]. split; [reflexivity |].
    eexists. split; [reflexivity |]. split; [| split].
    + exists "Failed to run "%string,
             (" (" ++ String_of_number (resp_status response) ++ "): "
                ++ resp_text response)%string.
      reflexivity.
    + exists ("Failed to run " ++ functionName ++ " (")%string,
             ("): " ++ resp_text response)%string.
      now rewrite !string_app_assoc.
    + exists ("Failed to run " ++ functionName ++ " ("
                ++ String_of_number (resp_status response) ++ "): ")%string, ""%string.
      now rewrite !string_app_assoc, string_app_nil_r.
Qed.

(** A request that gets no answer ([fetch] rejects): [setEnv] and
    [runFunction] throw the error of [fetch] itself, not an error of their
    own, after that one call and without assigning anything. *)
Theorem rejected_fetch_propagates_unwrapped
        (o : Oracle) (n : nat) (this : ConvexBackend) (e : Error) :
  truthy_number (port this) = true ->
  (forall name value : string,
      o _ n (setEnv_request name value this) = inl e ->
      run o n (setEnv name value this)
      = ([Ev (setEnv_request name value this) (inl e)], (this, Throws e)))
  /\ (forall functionName args : string,
         o _ n (runFunction_request functionName args this) = inl e ->
         run o n (runFunction functionName args this)
         = ([Ev (runFunction_request functionName args this) (inl e)], (this, Throws e))).
Proof.
  intros Hport. split.
  - intros name value Hans. now rewrite (setEnv_run o n name value this Hport), Hans.
  - intros functionName args Hans.
    now rewrite (runFunction_run o n functionName args this Hport), Hans.
Qed.

Lemma spawn_run_mkdir_fails (path_join : list string -> string) (o : Oracle) (n : nat)
      (dir : string) (this : ConvexBackend) (e : Error) :
  o _ n (spawn_mkdir path_join dir) = inl e ->
  run o n (spawn path_join dir this)
  = ([Ev (spawn_mkdir path_join dir) (inl e)], (this, Throws e)).
Proof.
  intros Hmkdir. unfold spawn, bind, get, put, call, callE, throw, ret.
  cbn [pbind run fst snd].
  fold (spawn_mkdir path_join dir). now rewrite Hmkdir.
Qed.

Lemma spawn_run_download_fails (path_join : list string -> string) (o : Oracle) (n : nat)
      (dir : string) (this : ConvexBackend) (e : Error) :
  o _ n (spawn_mkdir path_join dir) = inr tt ->
  o _ (1 + n)%nat (spawn_download this) = inl e ->
  run o n (spawn path_join dir this)
  = ([Ev (spawn_mkdir path_join dir) (inr tt); Ev (spawn_download this) (inl e)],
     (this, Throws e)).
Proof.
  intros Hmkdir Hdownload. unfold spawn, bind, get, put, call, callE, throw, ret.
  cbn [pbind run fst snd].
  fold (spawn_mkdir path_join dir). rewrite Hmkdir. cbn [pbind run fst snd].
  fold (spawn_download this). change (S n) with (1 + n)%nat. now rewrite Hdownload.
Qed.

(** [spawn] stops at its first failure.  When the storage directory cannot
    be made, the binary is not asked for; when the binary cannot be
    obtained, no process is created.  In both cases [spawn] throws the error
    it met and the instance, its process handle included, is as before. *)
Theorem spawn_stops_at_first_failure
        (path_join : list string -> string) (o : Oracle) (n : nat)
        (dir : string) (this : ConvexBackend) (e : Error) :
  (o _ n (spawn_mkdir path_join dir) = inl e ->
   run o n (spawn path_join dir this)
   = ([Ev (spawn_mkdir path_join dir) (inl e)], (this, Throws e)))
  /\ (o _ n (spawn_mkdir path_join dir) = inr tt ->
      o _ (1 + n)%nat (spawn_download this) = inl e ->
      let r := run o n (spawn path_join dir this) in
      existsb is_spawn (fst r) = false /\ snd r = (this, Throws e)).
Proof.
  split.
  - apply spawn_run_mkdir_fails.
  - intros Hmkdir Hdownload.
    rewrite (spawn_run_download_fails path_join o n dir this Hmkdir Hdownload).
    now split.
Qed.

(** A [spawn] that got no pid leaves its pid-less child in the handle, and
    [stop] returns at once on such an instance: it sends no signal, keeps the
    handle, and, even with [cleanup], does not remove the working
    directory. *)
Theorem stop_after_pidless_spawn_does_nothing
        (path_join : list string -> string) (o : Oracle) (n m : nat)
        (dir binary : string) (this : ConvexBackend) (cleanup : bool) :
  o _ n (spawn_mkdir path_join dir) = inr tt ->
  o _ (1 + n)%nat (spawn_download this) = inr binary ->
  pid (o _ (2 + n)%nat (spawn_create path_join dir binary this)) = None ->
  let after_spawn := fst (snd (run o n (spawn path_join dir this))) in
  process after_spawn = Some {| pid := None |}
  /\ run o m (stop cleanup after_spawn) = ([], (after_spawn, Normal tt)).
Proof.
  intros Hmkdir Hdownload Hpid after_spawn. subst after_spawn.
  rewrite (spawn_run path_join o n dir this Hmkdir Hdownload). cbv zeta.
  destruct (o _ (2 + n)%nat (spawn_create path_join dir binary this)) as [p].
  cbn [pid] in Hpid. subst p. cbn [pid truthy_number fst snd set_process process].
  split; [reflexivity |].
  apply stop_early_return. reflexivity.
Qed.

(** [spawn] and then [stop], on an instance without a handle: when the
    process got pid [p], [stop] signals [p] and the instance is again exactly
    what it was before [spawn]. *)
Theorem spawn_then_stop_restores_instance
        (path_join : list string -> string) (o : Oracle) (n : nat)
        (dir binary : string) (this : ConvexBackend) (cleanup : bool) (p : Z) :
  process this = None ->
  o _ n (spawn_mkdir path_join dir) = inr tt ->
  o _ (1 + n)%nat (spawn_download this) = inr binary ->
  pid (o _ (2 + n)%nat (spawn_create path_join dir binary this)) = Some p ->
  let spawning := run o n (spawn path_join dir this) in
  let stopping := run o (n + List.length (fst spawning)) (stop cleanup (fst (snd spawning))) in
  filter is_kill (fst spawning ++ fst stopping)
  = [Ev (process_kill p "SIGKILL")
        (o _ (n + List.length (fst spawning))%nat (process_kill p "SIGKILL"))]
  /\ fst (snd stopping) = this.
Proof.
  intros Hnone Hmkdir Hdownload Hpid spawning stopping.
  assert (Hstate : fst (snd spawning)
                   = set_process (Some (o _ (2 + n)%nat (spawn_create path_join dir binary this)))
                                 this).
  { subst spawning. rewrite (spawn_run path_join o n dir this Hmkdir Hdownload). cbv zeta.
    now destruct (truthy_number _). }
  assert (Hquiet : filter is_kill (fst spawning) = []).
  { subst spawning. rewrite (spawn_run path_join o n dir this Hmkdir Hdownload). cbv zeta.
    now destruct (truthy_number _). }
  subst stopping. rewrite filter_app, Hquiet, Hstate.
  rewrite (@stop_run o (n + List.length (fst spawning)) cleanup
             (set_process (Some (o _ (2 + n)%nat (spawn_create path_join dir binary this))) this)
             (o _ (2 + n)%nat (spawn_create path_join dir binary this)) p eq_refl Hpid).
  cbn [fst snd app]. split.
  - now destruct cleanup.
  - transitivity (set_process (process this) this);
      [now rewrite Hnone | apply set_process_same].
Qed.

(** [spawn] on an instance that already holds a process: the new child
    replaces the old one in the handle and the old process is not signalled,
    by [spawn] or by any later [stop], which signals the new pid only. *)
Theorem respawn_orphans_first_process
        (path_join : list string -> string) (o : Oracle) (n m : nat)
        (dir binary : string) (this : ConvexBackend) (cleanup : bool)
        (old : ChildProcess) (p : Z) :
  process this = Some old ->
  o _ n (spawn_mkdir path_join dir) = inr tt ->
  o _ (1 + n)%nat (spawn_download this) = inr binary ->
  pid (o _ (2 + n)%nat (spawn_create path_join dir binary this)) = Some p ->
  let spawning := run o n (spawn path_join dir this) in
  let stopping := run o m (stop cleanup (fst (snd spawning))) in
  filter is_kill (fst spawning) = []
  /\ process (fst (snd spawning))
     = Some (o _ (2 + n)%nat (spawn_create path_join dir binary this))
  /\ filter is_kill (fst stopping)
     = [Ev (process_kill p "SIGKILL") (o _ m (process_kill p "SIGKILL"))]
  /\ process (fst (snd stopping)) = None.
Proof.
  intros Hold Hmkdir Hdownload Hpid spawning stopping.
  assert (Hstate : fst (snd spawning)
                   = set_process (Some (o _ (2 + n)%nat (spawn_create path_join dir binary this)))
                                 this).
  { subst spawning. rewrite (spawn_run path_join o n dir this Hmkdir Hdownload). cbv zeta.
    now destruct (truthy_number _). }
  assert (Hquiet : filter is_kill (fst spawning) = []).
  { subst spawning. rewrite (spawn_run path_join o n dir this Hmkdir Hdownload). cbv zeta.
    now destruct (truthy_number _). }
  subst stopping. rewrite Hstate.
  rewrite (@stop_run o m cleanup
             (set_process (Some (o _ (2 + n)%nat (spawn_create path_join dir binary this))) this)
             (o _ (2 + n)%nat (spawn_create path_join dir binary this)) p eq_refl Hpid).
  cbn [fst snd]. repeat split; try assumption.
  now destruct cleanup.
Qed.

Lemma constructor_port (path_join : list string -> string) (o : Oracle) (n : nat)
      (options : ConvexBackendOptions) (logger : Logger) :
  port (snd (run o n (constructor path_join options logger)))
  = Some (nullish (Options.port options) 3210).
Proof.
  unfold constructor.
  destruct (both_truthy (Options.instanceSecret options) (Options.adminKey options))
    as [[secret key] |];
    destruct (Options.projectDir options); reflexivity.
Qed.

Lemma waitForReady_without_port (pollIntervalMs : Z) (o : Oracle) (n : nat)
      (this : ConvexBackend) :
  truthy_number (port this) = false ->
  run o n (waitForReady pollIntervalMs this)
  = ([], (this, Throws (new_Error "Port not set for health check"))).
Proof.
  intros Hport.
  unfold waitForReady, healthCheck, bind, get, throw. cbn [pbind run fst snd].
  now rewrite Hport.
Qed.

(** An instance configured with port 0 can be spawned (the binary is given
    [--port 0]) but never used: whatever methods were invoked on it since
    its construction, [deploy], [setEnv] and [runFunction] throw
    "Backend not started" and [waitForReady] throws
    "Port not set for health check", each without making any call. *)
Theorem port_zero_is_never_started
        (path_join : list string -> string) (pollIntervalMs : Z)
        (o : Oracle) (options : ConvexBackendOptions) (logger : Logger)
        (ops : list Op) (m : nat) :
  Options.port options = Some 0 ->
  let built := run o 0 (constructor path_join options logger) in
  let later := snd (run o (List.length (fst built))
                        (session path_join pollIntervalMs ops (snd built))) in
  run o m (deploy later) = ([], (later, Throws (new_Error "Backend not started")))
  /\ (forall name value : string,
         run o m (setEnv name value later)
         = ([], (later, Throws (new_Error "Backend not started"))))
  /\ (forall functionName args : string,
         run o m (runFunction functionName args later)
         = ([], (later, Throws (new_Error "Backend not started"))))
  /\ run o m (waitForReady pollIntervalMs later)
     = ([], (later, Throws (new_Error "Port not set for health check"))).
Proof.
  intros Hzero built later.
  assert (Hport : truthy_number (port later) = false).
  { destruct (Within_run (session_same_configuration path_join pollIntervalMs ops (snd built))
                         o (List.length (fst built))) as [_ [q Hq]].
    fold later in Hq. rewrite Hq. cbn [set_process port].
    subst built. now rewrite constructor_port, Hzero. }
  destruct (guard_reads_port o m later Hport) as (Hdeploy & HsetEnv & HrunFunction).
  repeat split; try assumption.
  now apply waitForReady_without_port.
Qed.

(** Whatever methods are invoked on an instance, in whatever world, the
    only field that changes is the process handle: ports, URL, directories,
    name, credentials and timeouts stay as they were.  No method calls the
    credential generator, and [getAdminKey] keeps returning the same key. *)
Theorem methods_assign_only_the_handle
        (path_join : list string -> string) (pollIntervalMs : Z)
        (o : Oracle) (n m : nat) (ops : list Op) (this : ConvexBackend) :
  let r := run o n (session path_join pollIntervalMs ops this) in
  snd r = set_process (process (snd r)) this
  /\ existsb is_generateKeyPair (fst r) = false
  /\ run o m (getAdminKey (snd r)) = ([], (snd r, Normal (adminKey this))).
Proof.
  intros r.
  destruct (Within_run (session_same_configuration path_join pollIntervalMs ops this) o n)
    as [Ht [q Hq]].
  fold r in Ht, Hq. split; [| split].
  - rewrite Hq. reflexivity.
  - now apply forallb_negb_existsb.
  - rewrite Hq. reflexivity.
Qed.

(** [deploy] on an instance with a port completes normally exactly when
    the deploy timeout is not negative and the command reported no error and
    exit status 0.  A command ended by a signal (no error, no status) counts
    as failed, with "exit code null" in the message.  With a negative deploy
    timeout the command is not run: [deploy] throws Node's range error. *)
Theorem deploy_normal_iff_exit_zero
        (o : Oracle) (n : nat) (this : ConvexBackend) :
  truthy_number (port this) = true ->
  let r := run o n (deploy this) in
  let answer := o _ n (deploy_command this) in
  (snd (snd r) = Normal tt
   <-> 0 <= deployTimeout this /\ error answer = None /\ status answer = Some 0)
  /\ (0 <= deployTimeout this ->
      error answer = None ->
      status answer = None ->
      exists msg : string,
        snd (snd r) = Throws (new_Error msg)
        /\ embeds msg "exit code null"
        /\ embeds msg (stdout answer)
        /\ embeds msg (stderr answer))
  /\ (deployTimeout this < 0 ->
      fst r = [] /\ snd (snd r) = Throws (ERR_OUT_OF_RANGE_timeout (deployTimeout this))).
Proof.
  intros Hport r answer. subst r answer.
  destruct (Z.lt_ge_cases (deployTimeout this) 0) as [Hneg | Htimeout].
  - rewrite (deploy_run_refused o n this Hport Hneg). cbn [fst snd].
    split; [| split].
    + split; [discriminate | intros [H _]; lia].
    + intros H. lia.
    + intros _. now split.
  - rewrite (deploy_run o n this Hport Htimeout). cbn [fst snd].
    destruct (o _ n (deploy_command this)) as [err st out errout].
    cbn [error status stdout stderr]. split; [| split].
    + split.
      * destruct err as [e |]; [discriminate |].
        destruct st as [[| p | p] |]; try discriminate. now repeat split.
      * intros (_ & -> & ->). reflexivity.
    + intros _ -> ->. cbn [template_nullable]. eexists. split; [reflexivity |].
      split; [| split].
      * exists "Failed to deploy ("%string,
               ("):" ++ String (ascii_of_nat 10) "" ++ (out ++ errout))%string.
        reflexivity.
      * exists ("Failed to deploy (exit code null):" ++ String (ascii_of_nat 10) "")%string,
               errout.
        now rewrite !string_app_assoc.
      * exists ("Failed to deploy (exit code null):" ++ String (ascii_of_nat 10) "" ++ out)%string,
               ""%string.
        now rewrite !string_app_assoc, string_app_nil_r.
    + intros H. lia.
Qed.


Lemma runFunction_returns_value_or_reports_witness :
  truthy_number (port fresh) = true
  /\ @failing _ 0%nat (runFunction_request "messages:list" "{}" fresh)
     = inr {| resp_status := 500; resp_text := "internal error" |}
  /\ (exists msg : string,
         snd (snd (run failing 0 (runFunction "messages:list" "{}" fresh)))
         = Throws (new_Error msg)
         /\ embeds msg "messages:list" /\ embeds msg "500" /\ embeds msg "internal error")
  /\ snd (snd (run calm 0 (runFunction "messages:list" "{}" fresh))) = Normal "null"%string.
Proof.
  split; [reflexivity |]. split; [reflexivity |]. split.
  - destruct (@runFunction_returns_value_or_reports failing 0 "messages:list" "{}" fresh
                {| resp_status := 500; resp_text := "internal error" |} eq_refl eq_refl)
      as (_ & _ & Hbad).
    apply Hbad. right. reflexivity.
  - destruct (@runFunction_returns_value_or_reports calm 0 "messages:list" "{}" fresh
                {| resp_status := 200; resp_text := "ok" |} eq_refl eq_refl)
      as (_ & Hgood & _).
    apply Hgood. split; discriminate.
Defined.

Lemma rejected_fetch_propagates_unwrapped_witness :
  truthy_number (port fresh) = true
  /\ snd (run offline 0 (setEnv "SITE_URL" "http://localhost:5173" fresh))
     = (fresh, Throws ENOTFOUND)
  /\ snd (run offline 0 (runFunction "messages:list" "{}" fresh))
     = (fresh, Throws ENOTFOUND).
Proof.
  split; [reflexivity |].
  destruct (@rejected_fetch_propagates_unwrapped offline 0 fresh ENOTFOUND eq_refl)
    as [HsetEnv HrunFunction].
  split.
  - now rewrite (HsetEnv "SITE_URL"%string "http://localhost:5173"%string eq_refl).
  - now rewrite (HrunFunction "messages:list"%string "{}"%string eq_refl).
Defined.

Lemma spawn_stops_at_first_failure_witness :
  run readonly_disk 0 (spawn posix_join (backendDir fresh) fresh)
  = ([Ev (spawn_mkdir posix_join (backendDir fresh)) (inl EACCES)], (fresh, Throws EACCES))
  /\ snd (run offline 0 (spawn posix_join (backendDir fresh) fresh))
     = (fresh, Throws ENOTFOUND).
Proof.
  split.
  - exact (proj1 (@spawn_stops_at_first_failure posix_join readonly_disk 0
                    (backendDir fresh) fresh EACCES) eq_refl).
  - exact (proj2 (proj2 (@spawn_stops_at_first_failure posix_join offline 0
                           (backendDir fresh) fresh ENOTFOUND) eq_refl eq_refl)).
Defined.

Lemma stop_after_pidless_spawn_does_nothing_witness :
  process unborn = Some {| pid := None |}
  /\ run calm 7 (stop true unborn) = ([], (unborn, Normal tt)).
Proof.
  exact (@stop_after_pidless_spawn_does_nothing posix_join failing 0 7
           (backendDir fresh) "/cache/convex-local-backend" fresh true
           eq_refl eq_refl eq_refl).
Defined.

Lemma spawn_then_stop_restores_instance_witness :
  process fresh = None
  /\ fst (snd (run calm 4 (stop true spawned))) = fresh.
Proof.
  split; [reflexivity |].
  exact (proj2 (@spawn_then_stop_restores_instance posix_join calm 0
                  (backendDir fresh) "/cache/convex-local-backend" fresh true 4242
                  eq_refl eq_refl eq_refl eq_refl)).
Defined.

Lemma respawn_orphans_first_process_witness :
  process spawned = Some {| pid := Some 4242 |}
  /\ process (fst (snd (run fresh_pids 10 (spawn posix_join (backendDir fresh) spawned))))
     = Some {| pid := Some 5012 |}
  /\ filter is_kill
            (fst (run fresh_pids 14
                      (stop true
                            (fst (snd (run fresh_pids 10
                                           (spawn posix_join (backendDir fresh) spawned)))))))
     = [Ev (process_kill 5012 "SIGKILL") (inr tt)].
Proof.
  split; [reflexivity |].
  destruct (@respawn_orphans_first_process posix_join fresh_pids 10 14
              (backendDir fresh) "/cache/convex-local-backend" spawned true
              {| pid := Some 4242 |} 5012 eq_refl eq_refl eq_refl eq_refl)
    as (_ & Hhandle & Hkill & _).
  split; [exact Hhandle | exact Hkill].
Defined.

Lemma port_zero_is_never_started_witness :
  Options.port port_zero_options = Some 0
  /\ (let built := run calm 0 (constructor posix_join port_zero_options 0%nat) in
      let later := snd (run calm (List.length (fst built))
                            (session posix_join 50 [op_spawn "/work/backend"] (snd built))) in
      process later = Some {| pid := Some 4242 |}
      /\ run calm 9 (deploy later)
         = ([], (later, Throws (new_Error "Backend not started")))).
Proof.
  split; [reflexivity |]. split; [reflexivity |].
  exact (proj1 (@port_zero_is_never_started posix_join 50 calm port_zero_options 0%nat
                  [op_spawn "/work/backend"] 9 eq_refl)).
Defined.

Lemma deploy_normal_iff_exit_zero_witness :
  truthy_number (port fresh) = true
  /\ snd (snd (run calm 0 (deploy fresh))) = Normal tt
  /\ (exists msg : string,
         snd (snd (run signalled_deploy 0 (deploy fresh))) = Throws (new_Error msg)
         /\ embeds msg "exit code null")
  /\ snd (snd (run calm 0 (deploy misconfigured))) = Throws (ERR_OUT_OF_RANGE_timeout (-1)).
Proof.
  split; [reflexivity |]. split; [| split].
  - apply (proj1 (@deploy_normal_iff_exit_zero calm 0 fresh eq_refl)).
    split; [discriminate | now split].
  - destruct (@deploy_normal_iff_exit_zero signalled_deploy 0 fresh eq_refl)
      as (_ & Hsignal & _).
    destruct (Hsignal ltac:(discriminate) eq_refl eq_refl) as (msg & Hthrows & Hembeds & _).
    exists msg. now split.
  - destruct (@deploy_normal_iff_exit_zero calm 0 misconfigured eq_refl)
      as (_ & _ & Hrefused).
    exact (proj2 (Hrefused eq_refl)).
Defined.

(* ================================================================== *)
(** ** The utilities of the lint plugin *)
(* ================================================================== *)

Section UtilsFacts.

Local Open Scope string_scope.

Lemma replace_each_app (f : ascii -> string) (a b : string) :
  replace_each f (a ++ b) = replace_each f a ++ replace_each f b.
Proof.
  induction a as [| c a IH]; simpl; [reflexivity |].
  now rewrite IH, string_app_assoc.
Qed.

Lemma string_length_app (a b : string) :
  String.length (a ++ b) = (String.length a + String.length b)%nat.
Proof.
  induction a as [| c a IH]; simpl; [reflexivity | now rewrite IH].
Qed.

Lemma includes_app (c : ascii) (a b : string) :
  includes c (a ++ b) = includes c a || includes c b.
Proof.
  induction a as [| x a IH]; simpl; [reflexivity |].
  now rewrite IH, orb_assoc.
Qed.

Lemma normalizePath_app (a b : string) :
  normalizePath (a ++ b) = normalizePath a ++ normalizePath b.
Proof. apply replace_each_app. Qed.

Lemma normalizePath_fixes (p : string) :
  includes backslash p = false -> normalizePath p = p.
Proof.
  unfold normalizePath. induction p as [| c p IH]; simpl; [reflexivity |].
  intros H. apply orb_false_iff in H. destruct H as [Hc Hp].
  rewrite Hc. simpl. now rewrite IH.
Qed.

Lemma normalizePath_no_backslash (p : string) :
  includes backslash (normalizePath p) = false.
Proof.
  unfold normalizePath. induction p as [| c p IH]; simpl; [reflexivity |].
  destruct (Ascii.eqb c backslash) eqn:Hc; simpl; [exact IH |].
  now rewrite Hc, IH.
Qed.

Lemma normalizePath_length (p : string) :
  String.length (normalizePath p) = String.length p.
Proof.
  unfold normalizePath. induction p as [| c p IH]; simpl; [reflexivity |].
  destruct (Ascii.eqb c backslash); simpl; now rewrite IH.
Qed.

Lemma normalizePath_slashes (p : string) :
  count slash (normalizePath p) = (count slash p + count backslash p)%nat.
Proof.
  unfold normalizePath. induction p as [| c p IH]; simpl; [reflexivity |].
  destruct (Ascii.eqb c backslash) eqn:Hb; simpl.
  - apply Ascii.eqb_eq in Hb. subst c. simpl. rewrite IH. lia.
  - destruct (Ascii.eqb c slash); simpl; now rewrite IH.
Qed.

Lemma normalizePath_idempotent (p : string) :
  normalizePath (normalizePath p) = normalizePath p.
Proof. apply normalizePath_fixes, normalizePath_no_backslash. Qed.


(** *** Indices and suffixes *)

Lemma get_drop (s : string) :
  forall i : nat,
    String.get i s = match drop i s with
                     | String c _ => Some c
                     | EmptyString => None
                     end.
Proof.
  induction s as [| c s IH]; intros [| i]; simpl; try reflexivity.
  apply IH.
Qed.

Lemma drop_succ (s : string) :
  forall i : nat,
    drop (i + 1) s = match drop i s with
                     | String _ r => r
                     | EmptyString => EmptyString
                     end.
Proof.
  induction s as [| c s IH]; intros [| i]; simpl; try reflexivity.
  apply IH.
Qed.

Lemma drop_add (s : string) :
  forall i k : nat, drop (i + k) s = drop k (drop i s).
Proof.
  induction s as [| c s IH]; intros [| i] k; simpl; try reflexivity.
  - now destruct k.
  - apply IH.
Qed.

Lemma drop_leading_stars (s : string) : drop (leading_stars s) s = drop_stars s.
Proof.
  induction s as [| c s IH]; simpl; [reflexivity |].
  destruct (Ascii.eqb c star); simpl; [exact IH | reflexivity].
Qed.

Lemma leading_stars_le (s : string) : (leading_stars s <= String.length s)%nat.
Proof.
  induction s as [| c s IH]; simpl; [lia |].
  destruct (Ascii.eqb c star); lia.
Qed.

Lemma drop_stars_length (s : string) : (String.length (drop_stars s) <= String.length s)%nat.
Proof.
  induction s as [| c s IH]; simpl; [lia |].
  destruct (Ascii.eqb c star); simpl; lia.
Qed.

Lemma drop_length (s : string) :
  forall i : nat, (String.length (drop i s) <= String.length s)%nat.
Proof.
  induction s as [| c s IH]; intros [| i]; simpl; try lia.
  specialize (IH i). lia.
Qed.

Lemma star_at_drop (s : string) (i : nat) :
  star_at s i = match drop i s with
                | String c _ => Ascii.eqb c star
                | EmptyString => false
                end.
Proof.
  unfold star_at. rewrite get_drop. now destruct (drop i s).
Qed.

(** The inner loop stops on the last star of the run. *)
Lemma skip_stars_spec (s : string) (fuel : nat) :
  forall i : nat,
    (leading_stars (drop (i + 1) s) <= fuel)%nat ->
    skip_stars fuel s i = (i + leading_stars (drop (i + 1) s))%nat.
Proof.
  induction fuel as [| fuel IH]; intros i Hfuel; simpl.
  - lia.
  - rewrite star_at_drop.
    pose proof (drop_succ s (i + 1)) as Hnext.
    destruct (drop (i + 1) s) as [| c r] eqn:Hdrop; simpl in *; [lia |].
    destruct (Ascii.eqb c star); [| lia].
    rewrite IH; rewrite Hnext; lia.
Qed.

Lemma glob_items_in_run (s : string) :
  glob_items true s = glob_items false (drop_stars s).
Proof.
  induction s as [| c s IH]; simpl; [reflexivity |].
  destruct (Ascii.eqb c star) eqn:Hc; [exact IH |].
  simpl. now rewrite Hc.
Qed.

(** The [for] loop of [globToRegExp] appends the source of the items of
    what is left of the pattern. *)
Lemma glob_loop_spec (s : string) (fuel : nat) :
  forall (i : nat) (acc : string),
    (String.length (drop i s) <= fuel)%nat ->
    glob_loop fuel s i acc = acc ++ render (glob_items false (drop i s)).
Proof.
  induction fuel as [| fuel IH]; intros i acc Hfuel.
  - destruct (drop i s); simpl in *; [now rewrite string_app_nil_r | lia].
  - cbn [glob_loop]. rewrite get_drop, star_at_drop.
    pose proof (drop_succ s i) as Hnext.
    destruct (drop i s) as [| c r] eqn:Hdrop; [simpl; now rewrite string_app_nil_r |].
    rewrite Hnext. cbn [String.length] in Hfuel.
    destruct (Ascii.eqb c star) eqn:Hstar.
    + destruct r as [| c' r'] eqn:Hr.
      * rewrite IH by (rewrite Hnext; simpl; lia).
        rewrite Hnext. simpl. rewrite Hstar. simpl. now rewrite string_app_assoc.
      * destruct (Ascii.eqb c' star) eqn:Hstar'.
        -- rewrite skip_stars_spec
             by (rewrite Hnext; pose proof (leading_stars_le (String c' r'));
                 pose proof (drop_length s (i + 1)); rewrite Hnext in *; lia).
           rewrite Hnext.
           replace (i + leading_stars (String c' r') + 1)%nat
             with (i + 1 + leading_stars (String c' r'))%nat by lia.
           assert (Hdropj : drop (i + 1 + leading_stars (String c' r')) s
                            = drop_stars (String c' r')).
           { now rewrite drop_add, Hnext, drop_leading_stars. }
           rewrite IH
             by (rewrite Hdropj; pose proof (drop_stars_length (String c' r')); simpl in *; lia).
           rewrite Hdropj. cbn [glob_items]. rewrite Hstar, Hstar'.
           cbn [render render_item render_atom].
           cbn [drop_stars]. rewrite Hstar', (glob_items_in_run r').
           now rewrite !string_app_assoc.
        -- rewrite IH by (rewrite Hnext; simpl in *; lia).
           rewrite Hnext. cbn [glob_items]. rewrite Hstar, Hstar'.
           cbn [render render_item render_atom].
           now rewrite !string_app_assoc.
    + destruct (Ascii.eqb c question) eqn:Hq.
      * rewrite IH by (rewrite Hnext; lia).
        rewrite Hnext. cbn [glob_items]. rewrite Hstar, Hq.
        cbn [render render_item render_atom]. now rewrite !string_app_assoc.
      * change (regexSpecialChars c) with (RegExp.syntax_char c).
        cbn [glob_items]. rewrite Hstar, Hq. cbn [render render_item render_atom].
        destruct (RegExp.syntax_char c);
          (rewrite IH by (rewrite Hnext; lia)); rewrite Hnext;
          now rewrite !string_app_assoc.
Qed.

(** *** Reading a source back *)

Lemma not_syntax_char (c : ascii) :
  RegExp.syntax_char c = false ->
  Ascii.eqb c dollar = false /\ Ascii.eqb c backslash = false
  /\ Ascii.eqb c lbracket = false /\ Ascii.eqb c dot = false
  /\ Ascii.eqb c star = false /\ Ascii.eqb c question = false.
Proof.
  unfold RegExp.syntax_char, one_of. cbn [existsb]. intros H.
  repeat (apply orb_false_iff in H; destruct H as [? H]).
  repeat split; assumption.
Qed.

(** No source of an item begins with a star. *)
Lemma render_head_not_star (items : RegExp.t) :
  match render items ++ String dollar "" with
  | String q _ => Ascii.eqb q star = false
  | EmptyString => True
  end.
Proof.
  destruct items as [| [a | a] items]; [reflexivity | |];
    destruct a as [c | |]; cbn [render render_item render_atom];
    try reflexivity;
    destruct (RegExp.syntax_char c) eqn:Hc; try reflexivity;
    apply not_syntax_char in Hc; simpl; tauto.
Qed.

Lemma parse_one (a : RegExp.Atom) (rest : string) (items : RegExp.t) :
  RegExp.parse_items rest = Some items ->
  match rest with
  | String q _ => Ascii.eqb q star = false
  | EmptyString => True
  end ->
  RegExp.parse_items (render_atom a ++ rest) = Some (RegExp.One a :: items).
Proof.
  intros Hrest Hhead. destruct a as [c | |]; cbn [render_atom].
  - destruct (RegExp.syntax_char c) eqn:Hc.
    + cbn [append RegExp.parse_items].
      change (Ascii.eqb backslash dollar) with false.
      change (Ascii.eqb backslash backslash) with true. cbv iota. rewrite Hc.
      destruct rest as [| q rest']; [now rewrite Hrest |].
      now rewrite Hhead, Hrest.
    + destruct (not_syntax_char c Hc) as (H1 & H2 & H3 & H4 & _).
      cbn [append RegExp.parse_items]. rewrite H1, H2, H3, H4, Hc.
      destruct rest as [| q rest']; [now rewrite Hrest |].
      now rewrite Hhead, Hrest.
  - cbn [append RegExp.parse_items].
    change (Ascii.eqb "."%char dollar) with false.
    change (Ascii.eqb "."%char backslash) with false.
    change (Ascii.eqb "."%char lbracket) with false.
    change (Ascii.eqb "."%char dot) with true. cbv iota.
    destruct rest as [| q rest']; [now rewrite Hrest |].
    now rewrite Hhead, Hrest.
  - cbn [append RegExp.parse_items].
    change (Ascii.eqb "["%char dollar) with false.
    change (Ascii.eqb "["%char backslash) with false.
    change (Ascii.eqb "["%char lbracket) with true.
    change (Ascii.eqb "^"%char caret) with true.
    change (Ascii.eqb "/"%char slash) with true.
    change (Ascii.eqb "]"%char rbracket) with true. cbv iota. cbn [andb].
    destruct rest as [| q rest']; [now rewrite Hrest |].
    now rewrite Hhead, Hrest.
Qed.

Lemma parse_star (a : RegExp.Atom) (rest : string) (items : RegExp.t) :
  RegExp.parse_items rest = Some items ->
  RegExp.parse_items (render_atom a ++ String star rest) = Some (RegExp.Star a :: items).
Proof.
  intros Hrest. destruct a as [c | |]; cbn [render_atom].
  - destruct (RegExp.syntax_char c) eqn:Hc.
    + cbn [append RegExp.parse_items].
      change (Ascii.eqb backslash dollar) with false.
      change (Ascii.eqb backslash backslash) with true. cbv iota. rewrite Hc.
      change (Ascii.eqb star star) with true. cbv iota. now rewrite Hrest.
    + destruct (not_syntax_char c Hc) as (H1 & H2 & H3 & H4 & _).
      cbn [append RegExp.parse_items]. rewrite H1, H2, H3, H4, Hc.
      change (Ascii.eqb star star) with true. cbv iota. now rewrite Hrest.
  - cbn [append RegExp.parse_items].
    change (Ascii.eqb "."%char dollar) with false.
    change (Ascii.eqb "."%char backslash) with false.
    change (Ascii.eqb "."%char lbracket) with false.
    change (Ascii.eqb "."%char dot) with true. cbv iota.
    change (Ascii.eqb star star) with true. cbv iota. now rewrite Hrest.
  - cbn [append RegExp.parse_items].
    change (Ascii.eqb "["%char dollar) with false.
    change (Ascii.eqb "["%char backslash) with false.
    change (Ascii.eqb "["%char lbracket) with true.
    change (Ascii.eqb "^"%char caret) with true.
    change (Ascii.eqb "/"%char slash) with true.
    change (Ascii.eqb "]"%char rbracket) with true. cbv iota. cbn [andb].
    change (Ascii.eqb star star) with true. cbv iota. now rewrite Hrest.
Qed.

(** Every list of items is read back from its source. *)
Lemma parse_render (items : RegExp.t) :
  RegExp.parse_items (render items ++ String dollar "") = Some items.
Proof.
  induction items as [| [a | a] items IH]; cbn [render render_item].
  - reflexivity.
  - rewrite string_app_assoc. apply parse_one; [exact IH | apply render_head_not_star].
  - rewrite !string_app_assoc. apply parse_star. exact IH.
Qed.

Lemma create_render (items : RegExp.t) :
  RegExp.create (String caret (render items ++ String dollar "")) = Some items.
Proof. unfold RegExp.create. change (Ascii.eqb caret caret) with true. apply parse_render. Qed.

(** *** globToRegExp *)

Lemma glob_source_spec (p : string) :
  glob_source p
  = String caret (render (glob_items false (normalizePath p)) ++ String dollar "").
Proof.
  unfold glob_source. cbv zeta. rewrite glob_loop_spec by (simpl; lia).
  simpl. reflexivity.
Qed.

Lemma globToRegExp_spec (p : string) :
  globToRegExp p = Some (glob_items false (normalizePath p)).
Proof. unfold globToRegExp. rewrite glob_source_spec. apply create_render. Qed.

Lemma buildGlobMatchers_map (patterns : list string) :
  buildGlobMatchers patterns
  = Some (map (fun q => {| pattern := q;
                           regex := glob_items false (normalizePath q);
                           hasSlash := includes slash (normalizePath q) |})
              patterns).
Proof.
  induction patterns as [| q patterns IH]; simpl; [reflexivity |].
  now rewrite globToRegExp_spec, IH.
Qed.

Lemma test_star (a : RegExp.Atom) (r : RegExp.t) (s : string) :
  RegExp.test (RegExp.Star a :: r) s
  = RegExp.test r s
    || match s with
       | EmptyString => false
       | String c s' => RegExp.atom_matches a c && RegExp.test (RegExp.Star a :: r) s'
       end.
Proof. now destruct s. Qed.

Lemma glob_items_literal (p : string) :
  includes star p = false ->
  includes question p = false ->
  forall s : string, RegExp.test (glob_items false p) s = String.eqb s p.
Proof.
  induction p as [| c p IH]; intros Hstar Hq s.
  - now destruct s.
  - simpl in Hstar, Hq.
    apply orb_false_iff in Hstar. destruct Hstar as [Hc Hstar].
    apply orb_false_iff in Hq. destruct Hq as [Hc' Hq].
    cbn [glob_items]. rewrite Hc, Hc'.
    destruct s as [| x s]; [reflexivity |].
    cbn [RegExp.test RegExp.atom_matches String.eqb].
    rewrite (IH Hstar Hq s). now destruct (Ascii.eqb x c).
Qed.

(** A glob without star, question mark or backslash matches one string
    only, the pattern itself: the dots and the other syntax characters of
    regular expressions in it are taken literally. *)
Theorem glob_without_wildcard_matches_itself (p : string) :
  includes star p = false ->
  includes question p = false ->
  includes backslash p = false ->
  exists r : RegExp.t,
    globToRegExp p = Some r
    /\ forall s : string, RegExp.test r s = String.eqb s p.
Proof.
  intros Hstar Hq Hb. exists (glob_items false p). split.
  - now rewrite globToRegExp_spec, (normalizePath_fixes p Hb).
  - now apply glob_items_literal.
Qed.

Lemma double_star_tail (c : ascii) (r : string) :
  double_star (String c r) = false -> double_star r = false.
Proof.
  destruct r as [| c' r]; [reflexivity |].
  cbn [double_star]. intros H. apply orb_false_iff in H. now destruct H.
Qed.

Lemma glob_items_same_depth (n : string) :
  double_star n = false ->
  forall s : string,
    RegExp.test (glob_items false n) s = true ->
    count slash s = count slash n.
Proof.
  induction n as [| c r IH]; intros Hds s Hs.
  - destruct s; [reflexivity | discriminate].
  - pose proof (double_star_tail c r Hds) as Hds'.
    cbn [glob_items] in Hs.
    destruct (Ascii.eqb c star) eqn:Hstar.
    + apply Ascii.eqb_eq in Hstar. subst c.
      assert (Hitems : glob_items false (String star r)
                       = RegExp.Star RegExp.NotSlash :: glob_items false r).
      { cbn [glob_items]. change (Ascii.eqb star star) with true. cbv iota.
        destruct r as [| c' r']; [reflexivity |].
        cbn [double_star] in Hds. apply orb_false_iff in Hds. destruct Hds as [Hds _].
        change (Ascii.eqb star star) with true in Hds. cbn [andb] in Hds.
        now rewrite Hds. }
      assert (Hs' : RegExp.test (RegExp.Star RegExp.NotSlash :: glob_items false r) s = true).
      { rewrite <- Hitems. cbn [glob_items]. change (Ascii.eqb star star) with true.
        exact Hs. }
      clear Hs Hitems.
      change (count slash (String star r)) with (count slash r).
      induction s as [| x s IHs].
      * rewrite test_star in Hs'. rewrite orb_false_r in Hs'. now apply IH.
      * rewrite test_star in Hs'. apply orb_true_iff in Hs'. destruct Hs' as [Hs' | Hs'].
        -- now apply IH.
        -- apply andb_true_iff in Hs'. destruct Hs' as [Hx Hs'].
           cbn [RegExp.atom_matches] in Hx. apply negb_true_iff in Hx.
           cbn [count]. rewrite Hx. now apply IHs.
    + destruct (Ascii.eqb c question) eqn:Hq.
      * apply Ascii.eqb_eq in Hq. subst c.
        change (count slash (String question r)) with (count slash r).
        destruct s as [| x s]; [discriminate |].
        cbn [RegExp.test RegExp.atom_matches] in Hs.
        apply andb_true_iff in Hs. destruct Hs as [Hx Hs].
        apply negb_true_iff in Hx. cbn [count]. rewrite Hx. now apply IH.
      * destruct s as [| x s]; [discriminate |].
        cbn [RegExp.test RegExp.atom_matches] in Hs.
        apply andb_true_iff in Hs. destruct Hs as [Hx Hs].
        apply Ascii.eqb_eq in Hx. subst x.
        cbn [count]. rewrite (IH Hds' s Hs). reflexivity.
Qed.

(** A glob in which no two stars are adjacent matches only paths of its own
    depth: a path it matches has as many slashes as the pattern has slashes
    and backslashes, since neither a star nor a question mark stands for a
    slash. *)
Theorem glob_without_double_star_keeps_depth (p : string) (r : RegExp.t) (s : string) :
  double_star p = false ->
  globToRegExp p = Some r ->
  RegExp.test r s = true ->
  count slash s = (count slash p + count backslash p)%nat.
Proof.
  intros Hds Hr Hs. rewrite globToRegExp_spec in Hr. injection Hr as <-.
  pose proof (normalizePath_slashes p) as Hcount.
  rewrite <- Hcount. apply glob_items_same_depth; [| exact Hs].
  clear Hs Hcount. unfold normalizePath.
  induction p as [| c p IH]; [reflexivity |].
  pose proof (double_star_tail c p Hds) as Hds'.
  destruct p as [| c' p']; [simpl; now destruct (Ascii.eqb c backslash) |].
  cbn [double_star] in Hds. apply orb_false_iff in Hds. destruct Hds as [Hcc _].
  specialize (IH Hds').
  cbn [replace_each] in IH |- *.
  destruct (Ascii.eqb c backslash) eqn:Hb, (Ascii.eqb c' backslash) eqn:Hb';
    cbn [append double_star] in IH |- *; rewrite IH, orb_false_r.
  - reflexivity.
  - apply Ascii.eqb_eq in Hb. subst c. reflexivity.
  - apply Ascii.eqb_eq in Hb'. subst c'. now rewrite andb_false_r.
  - exact Hcc.
Qed.

Lemma glob_items_cons (in_run : bool) (c : ascii) (r : string) :
  glob_items in_run (String c r)
  = if Ascii.eqb c star
    then
      if in_run
      then glob_items true r
      else match r with
           | String c' _ =>
               if Ascii.eqb c' star
               then RegExp.Star RegExp.Dot :: glob_items true r
               else RegExp.Star RegExp.NotSlash :: glob_items false r
           | EmptyString => RegExp.Star RegExp.NotSlash :: glob_items false r
           end
    else if Ascii.eqb c question
    then RegExp.One RegExp.NotSlash :: glob_items false r
    else RegExp.One (RegExp.Lit c) :: glob_items false r.
Proof. reflexivity. Qed.

Lemma glob_items_star_run (a b : string) :
  forall in_run : bool,
    glob_items in_run (a ++ "**" ++ b) = glob_items in_run (a ++ "***" ++ b).
Proof.
  induction a as [| c a IH]; intros in_run.
  - destruct in_run; reflexivity.
  - change (String c a ++ "**" ++ b) with (String c (a ++ "**" ++ b)).
    change (String c a ++ "***" ++ b) with (String c (a ++ "***" ++ b)).
    rewrite !glob_items_cons, !IH.
    destruct a as [| c' a']; reflexivity.
Qed.

(** A run of stars longer than two means what two stars mean: putting one
    more star into a pattern next to two stars does not change what it
    matches. *)
Theorem glob_star_run_collapses (a b : string) :
  globToRegExp (a ++ "***" ++ b) = globToRegExp (a ++ "**" ++ b)
  /\ glob_source (a ++ "***" ++ b) = glob_source (a ++ "**" ++ b).
Proof.
  rewrite !glob_source_spec, !globToRegExp_spec, !normalizePath_app.
  change (normalizePath "***") with "***". change (normalizePath "**") with "**".
  now rewrite glob_items_star_run.
Qed.

(** *** matchesAnyGlob *)

Lemma matches_loop_app (path base : string) (ms1 ms2 : list GlobMatcher) :
  matches_loop path base (ms1 ++ ms2)%list
  = matches_loop path base ms1 || matches_loop path base ms2.
Proof.
  induction ms1 as [| m ms1 IH]; simpl; [reflexivity |].
  destruct (RegExp.test (regex m) (if hasSlash m then path else base)); [reflexivity | exact IH].
Qed.

Lemma matchesAnyGlob_loop (filePath : string) (ms : list GlobMatcher) :
  matchesAnyGlob filePath ms
  = matches_loop (normalizePath filePath)
                 (nullish (pop (split slash (normalizePath filePath))) (normalizePath filePath))
                 ms.
Proof. now destruct ms. Qed.

(** [matchesAnyGlob] answers for the normalized path, so a Windows path and
    its POSIX spelling get the same answer; a list of matchers matches when
    one of its parts does, whatever their order; no matcher, no match. *)
Theorem matchesAnyGlob_normalizes_and_distributes
        (filePath : string) (ms1 ms2 : list GlobMatcher) :
  matchesAnyGlob (normalizePath filePath) ms1 = matchesAnyGlob filePath ms1
  /\ matchesAnyGlob filePath (ms1 ++ ms2)%list
     = matchesAnyGlob filePath ms1 || matchesAnyGlob filePath ms2
  /\ matchesAnyGlob filePath (ms2 ++ ms1)%list = matchesAnyGlob filePath (ms1 ++ ms2)%list
  /\ matchesAnyGlob filePath [] = false.
Proof.
  rewrite !matchesAnyGlob_loop, normalizePath_idempotent, !matches_loop_app.
  repeat split. apply orb_comm.
Qed.

Lemma split_without_separator (c : ascii) (s : string) :
  includes c s = false -> split c s = [s].
Proof.
  induction s as [| x s IH]; [reflexivity |].
  cbn [includes split]. intros H. apply orb_false_iff in H. destruct H as [Hx Hs].
  now rewrite Hx, (IH Hs).
Qed.

Lemma split_with_separator (c : ascii) (s : string) :
  includes c s = true ->
  exists (h h' : string) (t : list string), split c s = h :: h' :: t.
Proof.
  induction s as [| x s IH]; [discriminate |].
  cbn [includes split]. intros H.
  destruct (Ascii.eqb x c) eqn:Hx.
  - destruct (includes c s) eqn:Hs.
    + destruct (IH eq_refl) as (h & h' & t & ->). now exists "", h, (h' :: t).
    + rewrite (split_without_separator c s Hs). now exists "", s, [].
  - destruct (IH H) as (h & h' & t & ->). now exists (String x h), h', t.
Qed.

Lemma pop_split_cons (c x : ascii) (s : string) :
  includes c s = true ->
  pop (split c (String x s)) = pop (split c s).
Proof.
  intros H. destruct (split_with_separator c s H) as (h & h' & t & Hsplit).
  cbn [split]. rewrite Hsplit. now destruct (Ascii.eqb x c).
Qed.

(** The last segment of [dir/base] is [base]. *)
Lemma split_pop_base (dir base : string) :
  includes slash base = false ->
  pop (split slash (dir ++ String slash base)) = Some base.
Proof.
  intros Hbase. induction dir as [| x dir IH].
  - cbn [append split]. change (Ascii.eqb slash slash) with true. cbv iota.
    now rewrite (split_without_separator slash base Hbase).
  - cbn [append]. rewrite pop_split_cons; [exact IH |].
    rewrite includes_app. cbn [includes].
    change (Ascii.eqb slash slash) with true. now rewrite orb_true_r.
Qed.

Lemma matches_loop_basename (path path' base : string) (ms : list GlobMatcher) :
  forallb (fun m => negb (hasSlash m)) ms = true ->
  matches_loop path base ms = matches_loop path' base ms.
Proof.
  induction ms as [| m ms IH]; simpl; [reflexivity |].
  intros H. apply andb_true_iff in H. destruct H as [Hm Hms].
  apply negb_true_iff in Hm. rewrite Hm, (IH Hms). reflexivity.
Qed.

(** Patterns without a slash (or backslash) look at the file name only:
    matchers built from such patterns give a path [dir/base] the answer they
    give [base]. *)
Theorem matchesAnyGlob_slashless_patterns_see_basename
        (patterns : list string) (ms : list GlobMatcher) (dir base : string) :
  forallb (fun p => negb (includes slash p) && negb (includes backslash p)) patterns = true ->
  buildGlobMatchers patterns = Some ms ->
  includes slash base = false ->
  includes backslash base = false ->
  matchesAnyGlob (dir ++ String slash base) ms = matchesAnyGlob base ms.
Proof.
  intros Hpatterns Hms Hslash Hback.
  pose proof (buildGlobMatchers_map patterns) as Hbuild.
  rewrite Hbuild in Hms. injection Hms as <-.
  rewrite !matchesAnyGlob_loop, normalizePath_app.
  change (normalizePath (String slash base)) with (String slash (normalizePath base)).
  rewrite (normalizePath_fixes base Hback), (split_pop_base _ base Hslash),
    (split_without_separator slash base Hslash).
  cbn [pop nullish]. apply matches_loop_basename.
  clear Hbuild. induction patterns as [| p patterns IH]; [reflexivity |].
  cbn [forallb map hasSlash] in Hpatterns |- *.
  apply andb_true_iff in Hpatterns. destruct Hpatterns as [Hp Hrest].
  apply andb_true_iff in Hp. destruct Hp as [Hps Hpb].
  apply negb_true_iff in Hpb. rewrite (normalizePath_fixes p Hpb), Hps.
  now apply IH.
Qed.

(** *** isIgnored *)

Lemma ignoreSpecialChars_true (c : ascii) :
  ignoreSpecialChars c = true ->
  RegExp.syntax_char c = true /\ Ascii.eqb c star = false /\ Ascii.eqb c question = false.
Proof.
  unfold ignoreSpecialChars, one_of. cbn [existsb]. intros H.
  repeat (apply orb_true_iff in H; destruct H as [H | H];
          [apply Ascii.eqb_eq in H; subst c; repeat split |]).
  discriminate.
Qed.

Lemma ignoreSpecialChars_false (c : ascii) :
  ignoreSpecialChars c = false ->
  Ascii.eqb c star = false ->
  Ascii.eqb c question = false ->
  RegExp.syntax_char c = false.
Proof.
  unfold ignoreSpecialChars, RegExp.syntax_char, one_of. cbn [existsb].
  intros H Hs Hq.
  repeat (apply orb_false_iff in H; destruct H as [? H]).
  repeat match goal with
         | E : Ascii.eqb c _ = false |- _ => rewrite E; clear E
         end.
  reflexivity.
Qed.

(** The three replacements of [isIgnored] turn each character of the
    pattern into the source of its item. *)
Lemma ignore_source_spec (p : string) :
  ignore_source p = String caret (render (ignore_items p) ++ String dollar "").
Proof.
  unfold ignore_source. f_equal. f_equal.
  induction p as [| c p IH]; [reflexivity |].
  cbn [replace_each ignore_items render]. rewrite !replace_each_app, IH. f_equal.
  unfold ignore_item.
  destruct (ignoreSpecialChars c) eqn:Hc.
  - destruct (ignoreSpecialChars_true c Hc) as (Hsyn & Hs & Hq).
    rewrite Hs, Hq. cbn [render_item render_atom]. rewrite Hsyn.
    cbn [replace_each append].
    change (Ascii.eqb backslash star) with false.
    change (Ascii.eqb backslash question) with false.
    rewrite Hs. cbn [replace_each append]. now rewrite Hq.
  - cbn [replace_each append].
    destruct (Ascii.eqb c star) eqn:Hs; [reflexivity |].
    cbn [replace_each append].
    destruct (Ascii.eqb c question) eqn:Hq; [reflexivity |].
    cbn [render_item render_atom].
    now rewrite (ignoreSpecialChars_false c Hc Hs Hq).
Qed.

Lemma endsWith_dot_star_includes_star (p : string) :
  endsWith ".*" p = true -> includes star p = true.
Proof.
  induction p as [| c p IH]; [discriminate |].
  cbn [endsWith includes]. intros H. apply orb_true_iff in H. destruct H as [H | H].
  - apply String.eqb_eq in H. injection H as <- <-. reflexivity.
  - rewrite (IH H). apply orb_true_r.
Qed.

Lemma fast_path_test_false (pattern : string) :
  endsWith ".*" pattern && negb (includes star pattern) = false.
Proof.
  destruct (endsWith ".*" pattern) eqn:H; [| reflexivity].
  now rewrite (endsWith_dot_star_includes_star pattern H).
Qed.

Lemma isIgnored_pattern_spec (key pattern : string) :
  isIgnored_pattern key pattern
  = Some (String.eqb key pattern
          || (includes star pattern || includes question pattern)
             && RegExp.test (ignore_items pattern) key).
Proof.
  unfold isIgnored_pattern.
  destruct (String.eqb key pattern); [reflexivity |].
  rewrite fast_path_test_false, ignore_source_spec, create_render.
  now destruct (includes star pattern || includes question pattern).
Qed.

Lemma isIgnored_spec (key : string) (patterns : list string) :
  isIgnored key patterns
  = Some (existsb (fun pattern =>
                     String.eqb key pattern
                     || (includes star pattern || includes question pattern)
                        && RegExp.test (ignore_items pattern) key)
                  patterns).
Proof.
  induction patterns as [| pattern patterns IH]; [reflexivity |].
  cbn [isIgnored existsb]. rewrite isIgnored_pattern_spec, IH.
  now destruct (String.eqb key pattern || _).
Qed.

Lemma ignore_items_app (a b : string) :
  ignore_items (a ++ b) = (ignore_items a ++ ignore_items b)%list.
Proof.
  induction a as [| c a IH]; simpl; [reflexivity | now rewrite IH].
Qed.

Lemma test_literal_prefix (m : string) (items : RegExp.t) :
  includes star m = false ->
  includes question m = false ->
  forall s : string,
    RegExp.test (ignore_items m ++ items)%list s
    = startsWith m s && RegExp.test items (drop (String.length m) s).
Proof.
  induction m as [| c m IH]; intros Hstar Hq s; [reflexivity |].
  cbn [includes] in Hstar, Hq.
  apply orb_false_iff in Hstar. destruct Hstar as [Hc Hstar].
  apply orb_false_iff in Hq. destruct Hq as [Hc' Hq].
  cbn [ignore_items app]. unfold ignore_item. rewrite Hc, Hc'.
  destruct s as [| x s]; [reflexivity |].
  cbn [RegExp.test RegExp.atom_matches startsWith String.length drop].
  rewrite (IH Hstar Hq s), (Ascii.eqb_sym x c). apply andb_assoc.
Qed.

Lemma test_any_one_line (s : string) :
  RegExp.test [RegExp.Star RegExp.Dot] s = one_line s.
Proof.
  induction s as [| c s IH]; [reflexivity |].
  rewrite test_star. change (RegExp.test [] (String c s)) with false.
  cbn [RegExp.atom_matches one_line orb]. now rewrite IH.
Qed.

Lemma startsWith_app (a b : string) : startsWith a (a ++ b) = true.
Proof.
  induction a as [| c a IH]; [reflexivity |].
  cbn [append startsWith]. now rewrite Ascii.eqb_refl, IH.
Qed.

Lemma drop_app_length (a b : string) : drop (String.length a) (a ++ b) = b.
Proof. induction a as [| c a IH]; [reflexivity | exact IH]. Qed.

(** The pattern [m.*], [m] without star or question mark, ignores the keys
    that begin with [m.] and go on without a line terminator: every function
    of the module [m], and of the modules below it. *)
Theorem module_wildcard_ignores_the_module (m key : string) :
  includes star m = false ->
  includes question m = false ->
  isIgnored key [m ++ ".*"]
  = Some (startsWith (m ++ ".") key && one_line (drop (String.length m + 1) key)).
Proof.
  intros Hstar Hq.
  rewrite isIgnored_spec. cbn [existsb]. rewrite orb_false_r. f_equal.
  assert (Hitems : RegExp.test (ignore_items (m ++ ".*")) key
                   = startsWith (m ++ ".") key
                     && one_line (drop (String.length m + 1) key)).
  { replace (m ++ ".*") with ((m ++ ".") ++ "*") by now rewrite string_app_assoc.
    rewrite ignore_items_app.
    rewrite test_literal_prefix
      by (rewrite includes_app; cbn [includes]; rewrite ?Hstar, ?Hq; reflexivity).
    rewrite string_length_app. cbn [String.length ignore_items].
    unfold ignore_item. change (Ascii.eqb "*"%char star) with true. cbv iota.
    now rewrite test_any_one_line. }
  rewrite Hitems, includes_app. cbn [includes].
  change (Ascii.eqb "*"%char star) with true.
  rewrite !orb_true_r. cbn [orb andb].
  destruct (String.eqb key (m ++ ".*")) eqn:Heq; [| reflexivity].
  apply String.eqb_eq in Heq. subst key.
  replace (m ++ ".*") with ((m ++ ".") ++ "*") by now rewrite string_app_assoc.
  rewrite startsWith_app.
  replace (String.length m + 1)%nat with (String.length (m ++ "."))
    by (rewrite string_length_app; reflexivity).
  now rewrite drop_app_length.
Qed.

Lemma string_eqb_length (a b : string) :
  String.eqb a b = true -> String.length a = String.length b.
Proof. intros H. apply String.eqb_eq in H. now subst. Qed.

(** A pattern without star or question mark ignores one key only, the key
    equal to it.  In particular a bare function name does not ignore that
    function in a module: the key of a function always has its module path
    and a dot before the name. *)
Theorem plain_pattern_ignores_only_itself (pattern key modulePath : string) :
  includes star pattern = false ->
  includes question pattern = false ->
  isIgnored key [pattern] = Some (String.eqb key pattern)
  /\ isIgnored (modulePath ++ "." ++ pattern) [pattern] = Some false.
Proof.
  intros Hstar Hq.
  assert (H : forall k : string, isIgnored k [pattern] = Some (String.eqb k pattern)).
  { intros k. rewrite isIgnored_spec. cbn [existsb].
    now rewrite Hstar, Hq, orb_false_r, orb_false_r. }
  split; [apply H |].
  rewrite H. f_equal.
  destruct (String.eqb (modulePath ++ "." ++ pattern) pattern) eqn:Heq; [| reflexivity].
  apply string_eqb_length in Heq. rewrite !string_length_app in Heq.
  cbn [String.length] in Heq. lia.
Qed.

(** *** The properties of the utilities *)

(** [normalizePath]: the result has no backslash and the length of the
    argument, each backslash having become one slash and the slashes that
    were there kept; paths without a backslash are returned as they are, so
    normalizing twice is normalizing once. *)
Theorem normalizePath_replaces_every_backslash (p : string) :
  includes backslash (normalizePath p) = false
  /\ String.length (normalizePath p) = String.length p
  /\ count slash (normalizePath p) = (count slash p + count backslash p)%nat
  /\ normalizePath (normalizePath p) = normalizePath p
  /\ (includes backslash p = false -> normalizePath p = p).
Proof.
  split; [apply normalizePath_no_backslash |].
  split; [apply normalizePath_length |].
  split; [apply normalizePath_slashes |].
  split; [apply normalizePath_idempotent |].
  apply normalizePath_fixes.
Qed.

(** [globToRegExp] never throws: whatever the pattern, the source it
    builds is a well-formed regular expression, and what it matches is read
    off the pattern (backslashes taken as slashes) from left to right: a run
    of two or more stars matches any characters but line terminators, a
    single star any characters but a slash, a question mark one character
    but a slash, and any other character, syntax characters of regular
    expressions included, itself.  So [buildGlobMatchers] never throws
    either, and keeps the patterns in order. *)
Theorem globToRegExp_never_throws (p : string) (patterns : list string) :
  globToRegExp p = Some (glob_items false (normalizePath p))
  /\ buildGlobMatchers patterns
     = Some (map (fun q => {| pattern := q;
                              regex := glob_items false (normalizePath q);
                              hasSlash := includes slash (normalizePath q) |})
                 patterns).
Proof.
  split.
  - unfold globToRegExp. rewrite glob_source_spec. apply create_render.
  - induction patterns as [| q patterns IH]; [reflexivity |].
    cbn [buildGlobMatchers map]. rewrite globToRegExp_spec, IH. reflexivity.
Qed.

(** The branch of [isIgnored] meant for module wildcards is never taken:
    its test asks for a pattern that ends with [.*] and contains no star.
    So a pattern is decided by the exact comparison and the glob branch
    alone. *)
Theorem module_wildcard_fast_path_is_dead (key pattern : string) :
  endsWith ".*" pattern && negb (includes star pattern) = false
  /\ isIgnored_pattern key pattern
     = if String.eqb key pattern then Some true
       else if includes star pattern || includes question pattern
            then option_map (fun regex => RegExp.test regex key)
                            (RegExp.create (ignore_source pattern))
            else Some false.
Proof.
  split; [apply fast_path_test_false |].
  unfold isIgnored_pattern. rewrite fast_path_test_false.
  destruct (String.eqb key pattern); [reflexivity |].
  destruct (includes star pattern || includes question pattern); [| reflexivity].
  now destruct (RegExp.create (ignore_source pattern)).
Qed.

(** [isIgnored] never throws, whatever characters the patterns contain.
    A key is ignored exactly when some pattern equals it, or contains a star
    or a question mark and matches the whole key with a star standing for
    any characters (line terminators apart), a question mark for any one
    such character, and every other character for itself. *)
Theorem isIgnored_is_exact_or_glob (key : string) (patterns : list string) :
  isIgnored key patterns
  = Some (existsb (fun pattern =>
                     String.eqb key pattern
                     || (includes star pattern || includes question pattern)
                        && RegExp.test (ignore_items pattern) key)
                  patterns).
Proof.
  induction patterns as [| pattern patterns IH]; [reflexivity |].
  cbn [isIgnored existsb].
  unfold isIgnored_pattern at 1.
  destruct (String.eqb key pattern); [reflexivity |].
  rewrite fast_path_test_false, ignore_source_spec, create_render. cbn [orb].
  destruct (includes star pattern || includes question pattern); cbn [andb].
  - destruct (RegExp.test (ignore_items pattern) key); [reflexivity | exact IH].
  - exact IH.
Qed.

(** *** The utilities at concrete inputs *)

(** The expectations of the unit tests of the utilities (utils.test.ts)
    hold of the model. *)
Lemma utils_unit_tests_hold :
  isIgnored "module.function" ["module.function"] = Some true
  /\ isIgnored "module.other" ["module.function"] = Some false
  /\ isIgnored "presence.get" ["presence.*"] = Some true
  /\ isIgnored "foo.bar.get" ["foo.bar.*"] = Some true
  /\ isIgnored "other.get" ["presence.*"] = Some false
  /\ isIgnored "module.seedData" ["*.seed*"] = Some true
  /\ isIgnored "internalHelper" ["internal*"] = Some true
  /\ isIgnored "get_something_by_id" ["get*id"] = Some true
  /\ isIgnored "module.testA" ["module.test?"] = Some true
  /\ isIgnored "module.test12" ["module.test?"] = Some false
  /\ isIgnored "baz.noseed" ["*.seed*"] = Some false
  /\ isIgnored "internal.action" ["presence.*"; "internal.*"; "*.seed*"] = Some true
  /\ isIgnored "other.function" ["presence.*"; "internal.*"] = Some false
  /\ isIgnored "module.function" [] = Some false
  /\ isIgnored "module.test(1)" ["module.test(1)"] = Some true
  /\ isIgnored "modulexfunction" ["module.function"] = Some false
  /\ normalizePath ("foo" ++ String backslash "bar/baz" ++ String backslash "qux")
     = "foo/bar/baz/qux"
  /\ normalizePath "" = ""
  /\ option_map (fun r => map (RegExp.test r) ["file.ts"; "another.ts"; "dir/file.ts"])
                (globToRegExp "*.ts")
     = Some [true; true; false]
  /\ option_map (fun r => map (RegExp.test r) ["file.ts"; "dir/file.ts"; "a/b/c/file.ts"])
                (globToRegExp "**/*.ts")
     = Some [false; true; true]
  /\ option_map (fun r => map (RegExp.test r) ["file.ts"; "dir/file.ts"])
                (globToRegExp "**.ts")
     = Some [true; true]
  /\ option_map (fun r => map (RegExp.test r) ["file1.ts"; "fileA.ts"; "file12.ts"; "file/.ts"])
                (globToRegExp "file?.ts")
     = Some [true; true; false; false]
  /\ option_map (fun r => map (RegExp.test r) ["file.test.ts"; "filextest.ts"])
                (globToRegExp "file.test.ts")
     = Some [true; false]
  /\ option_map (fun r => map (RegExp.test r)
                              ["src/file.test.ts"; "src/utils/file.test.ts";
                               "src/a/b/helper.test.ts"; "lib/utils/file.test.ts"])
                (globToRegExp "src/**/*.test.ts")
     = Some [false; true; true; false]
  /\ option_map (map (fun m => (pattern m, hasSlash m))) (buildGlobMatchers ["*.ts"; "src/**/*.js"])
     = Some [("*.ts", false); ("src/**/*.js", true)]
  /\ option_map (fun ms => map (fun f => matchesAnyGlob f ms)
                               ["src/utils/helper.test.ts"; "helper.test.ts";
                                "src/utils/helper.ts"])
                (buildGlobMatchers ["*.test.ts"])
     = Some [true; true; false]
  /\ option_map (fun ms => map (fun f => matchesAnyGlob f ms)
                               ["src/file.ts"; "src/utils/file.ts"; "src/a/b/file.ts";
                                "lib/file.ts";
                                "src" ++ String backslash "utils" ++ String backslash "file.ts"])
                (buildGlobMatchers ["src/**/*.ts"])
     = Some [false; true; true; false; true]
  /\ option_map (fun ms => map (fun f => matchesAnyGlob f ms)
                               ["file.test.ts"; "file.spec.ts"; "file.ts"])
                (buildGlobMatchers ["*.test.ts"; "*.spec.ts"])
     = Some [true; true; false].
Proof.
  repeat split.
Qed.

Lemma normalizePath_replaces_every_backslash_witness :
  includes backslash "src/utils/file.ts" = false
  /\ normalizePath "src/utils/file.ts" = "src/utils/file.ts".
Proof.
  split; [reflexivity |].
  destruct (normalizePath_replaces_every_backslash "src/utils/file.ts")
    as (_ & _ & _ & _ & Hfix).
  exact (Hfix eq_refl).
Defined.

Lemma glob_without_wildcard_matches_itself_witness :
  includes star "file.test.ts" = false
  /\ includes question "file.test.ts" = false
  /\ includes backslash "file.test.ts" = false
  /\ exists r : RegExp.t,
      globToRegExp "file.test.ts" = Some r
      /\ forall s : string, RegExp.test r s = String.eqb s "file.test.ts".
Proof.
  split; [reflexivity |]. split; [reflexivity |]. split; [reflexivity |].
  exact (@glob_without_wildcard_matches_itself "file.test.ts" eq_refl eq_refl eq_refl).
Defined.

Lemma glob_without_double_star_keeps_depth_witness :
  double_star "src/*.test.ts" = false
  /\ globToRegExp "src/*.test.ts" = Some (glob_items false "src/*.test.ts")
  /\ RegExp.test (glob_items false "src/*.test.ts") "src/file.test.ts" = true
  /\ count slash "src/file.test.ts" = 1%nat.
Proof.
  split; [reflexivity |]. split; [reflexivity |]. split; [reflexivity |].
  exact (@glob_without_double_star_keeps_depth "src/*.test.ts"
           (glob_items false "src/*.test.ts") "src/file.test.ts" eq_refl eq_refl eq_refl).
Defined.

Lemma matchesAnyGlob_slashless_patterns_see_basename_witness :
  exists ms : list GlobMatcher,
    buildGlobMatchers ["*.test.ts"; "*.spec.ts"] = Some ms
    /\ matchesAnyGlob "src/utils/helper.test.ts" ms = matchesAnyGlob "helper.test.ts" ms
    /\ matchesAnyGlob "helper.test.ts" ms = true.
Proof.
  destruct (buildGlobMatchers ["*.test.ts"; "*.spec.ts"]) as [ms |] eqn:Hms;
    [| discriminate Hms].
  exists ms. split; [reflexivity |]. split.
  - exact (@matchesAnyGlob_slashless_patterns_see_basename
             ["*.test.ts"; "*.spec.ts"] ms "src/utils" "helper.test.ts"
             eq_refl Hms eq_refl eq_refl).
  - injection Hms as <-. reflexivity.
Defined.

Lemma module_wildcard_ignores_the_module_witness :
  includes star "presence" = false
  /\ includes question "presence" = false
  /\ isIgnored "presence.get" ["presence.*"] = Some true
  /\ isIgnored "presences.get" ["presence.*"] = Some false.
Proof.
  split; [reflexivity |]. split; [reflexivity |]. split.
  - exact (@module_wildcard_ignores_the_module "presence" "presence.get" eq_refl eq_refl).
  - exact (@module_wildcard_ignores_the_module "presence" "presences.get" eq_refl eq_refl).
Defined.

Lemma plain_pattern_ignores_only_itself_witness :
  includes star "deleteRoom" = false
  /\ includes question "deleteRoom" = false
  /\ isIgnored "deleteRoom" ["deleteRoom"] = Some true
  /\ isIgnored "rooms.deleteRoom" ["deleteRoom"] = Some false.
Proof.
  split; [reflexivity |]. split; [reflexivity |].
  destruct (@plain_pattern_ignores_only_itself "deleteRoom" "deleteRoom" "rooms"
              eq_refl eq_refl) as [Hsame Hmodule].
  split; [exact Hsame | exact Hmodule].
Defined.

End UtilsFacts.
